(** * Maximo agent gateway: tool-orchestration loop and tool registry

    A shallow embedding of the JavaScript of the repository:

    - the agent's [POST /api/agent/chat] handler (tool schema adapter
      [toOpenAITools], provider client [openaiCompatChat], tool-call loop);
    - the registry server [mcp-server/server.mjs] (trace buffer and
      [GET /api/logs], [tenantOrThrow], [mcpToOpenAITools], [GET /mcp/tools],
      [POST /mcp/call], and the routes as far as they touch the buffer);
    - the agent's Maximo helpers [normMaximoBase] and [maximoApiBase].

    JavaScript values that come out of [JSON.parse] are modelled by the
    inductive type [json]; [undefined] is the [None] of [option json].
    Network calls are answered by an explicit environment, exceptions are
    explicit results, and the handler's mutable variables live in a state
    record threaded by a small state-and-exception monad. *)

From Stdlib Require Import List String Ascii ZArith Bool Arith Lia DecimalString.
Import ListNotations.
#[local] Set Warnings "-register-all".
Local Open Scope string_scope.
Local Open Scope list_scope.

(* ================================================================== *)
(** * Definitions *)
(* ================================================================== *)

(** ** JavaScript values and the built-ins the code relies on *)

Module JS.

(** A value produced by [JSON.parse].  Numbers are restricted to the
    integers that JavaScript holds exactly and prints in plain decimal
    (magnitude up to 2^53; from 10^21 on it prints an exponent); an
    object is the list of its own properties in insertion order, property
    names being distinct after [JSON.parse]. *)
Inductive json : Type :=
| JNull
| JBool (b : bool)
| JNum (z : Z)
| JStr (s : string)
| JArr (items : list json)
| JObj (fields : list (string * json)).

(** A value or [undefined]. *)
Definition jsval := option json.

Fixpoint lookup (k : string) (fields : list (string * json)) : jsval :=
  match fields with
  | [] => None
  | (k', v) :: rest => if String.eqb k k' then Some v else lookup k rest
  end.

(** [v.k] for a non-null [v] and a name [k] that is no built-in member
    of strings, arrays, numbers or plain objects (the code only reads such
    names): primitives and arrays answer [undefined]. *)
Definition get (v : json) (k : string) : jsval :=
  match v with
  | JObj fields => lookup k fields
  | _ => None
  end.

(** [v?.k] *)
Definition opt_get (v : jsval) (k : string) : jsval :=
  match v with
  | None | Some JNull => None
  | Some w => get w k
  end.

(** [v?.[0]]: first element of an array, first character of a string,
    property ["0"] of an object. *)
Definition opt_first (v : jsval) : jsval :=
  match v with
  | Some (JArr items) => nth_error items 0
  | Some (JStr (String c _)) => Some (JStr (String c EmptyString))
  | Some (JObj fields) => lookup "0" fields
  | _ => None
  end.

(** ToBoolean *)
Definition truthy (v : jsval) : bool :=
  match v with
  | None | Some JNull => false
  | Some (JBool b) => b
  | Some (JNum z) => negb (Z.eqb z 0)
  | Some (JStr s) => negb (String.eqb s EmptyString)
  | Some (JArr _) | Some (JObj _) => true
  end.

(** [a || b] and [a && b] *)
Definition js_or (a b : jsval) : jsval := if truthy a then a else b.
Definition js_and (a b : jsval) : jsval := if truthy a then b else a.

(** [a || d] with a defined right operand. *)
Definition or_else (a : jsval) (d : json) : json :=
  match js_or a (Some d) with
  | Some v => v
  | None => d
  end.

(** [typeof v === "object"] *)
Definition typeof_object (v : jsval) : bool :=
  match v with
  | Some JNull | Some (JArr _) | Some (JObj _) => true
  | _ => false
  end.

(** [v === s] for a string literal [s] *)
Definition is_string (v : jsval) (s : string) : bool :=
  match v with
  | Some (JStr x) => String.eqb x s
  | _ => false
  end.

Definition string_of_Z (z : Z) : string := NilZero.string_of_int (Z.to_int z).

(** [String(v)] on a value: an array prints its elements joined by
    commas, [null] elements printing as nothing. *)
Fixpoint String_of (v : json) : string :=
  match v with
  | JNull => "null"
  | JBool true => "true"
  | JBool false => "false"
  | JNum z => string_of_Z z
  | JStr s => s
  | JArr items =>
      String.concat ","
        (map (fun e => match e with JNull => EmptyString | _ => String_of e end) items)
  | JObj _ => "[object Object]"
  end.

(** [String(v)] *)
Definition js_String (v : jsval) : string :=
  match v with
  | None => "undefined"
  | Some w => String_of w
  end.

(** Strings are sequences of code units below 256; these are the white
    space and line terminator code units of that range. *)
Definition is_space (c : ascii) : bool :=
  let n := nat_of_ascii c in
  (Nat.eqb n 9 || Nat.eqb n 10 || Nat.eqb n 11 || Nat.eqb n 12
   || Nat.eqb n 13 || Nat.eqb n 32 || Nat.eqb n 160)%bool.

Fixpoint trim_start (s : string) : string :=
  match s with
  | EmptyString => EmptyString
  | String c rest => if is_space c then trim_start rest else s
  end.

Fixpoint trim_end (s : string) : string :=
  match s with
  | EmptyString => EmptyString
  | String c rest =>
      let r := trim_end rest in
      if (is_space c && String.eqb r EmptyString)%bool then EmptyString else String c r
  end.

(** [s.trim()] *)
Definition trim (s : string) : string := trim_end (trim_start s).

Definition lower (c : ascii) : ascii :=
  let n := nat_of_ascii c in
  if (Nat.leb 65 n && Nat.leb n 90)%bool then ascii_of_nat (n + 32) else c.

(** [s.toLowerCase()] on the ASCII letters *)
Fixpoint toLowerCase (s : string) : string :=
  match s with
  | EmptyString => EmptyString
  | String c rest => String (lower c) (toLowerCase rest)
  end.

(** [s.includes(sub)] *)
Fixpoint includes (s sub : string) : bool :=
  (String.prefix sub s
   || match s with
      | EmptyString => false
      | String _ rest => includes rest sub
      end)%bool.

(** [s.endsWith(suffix)] *)
Definition endsWith (s suffix : string) : bool :=
  let n := String.length s in
  let m := String.length suffix in
  (Nat.leb m n && String.eqb (substring (n - m) m s) suffix)%bool.

(** [v.length] for a non-null [v] *)
Definition js_length (v : json) : jsval :=
  match v with
  | JArr items => Some (JNum (Z.of_nat (List.length items)))
  | JStr s => Some (JNum (Z.of_nat (String.length s)))
  | JObj fields => lookup "length" fields
  | _ => None
  end.

Fixpoint chars (s : string) : list json :=
  match s with
  | EmptyString => []
  | String c rest => JStr (String c EmptyString) :: chars rest
  end.

(** The elements [for (const x of v)] visits; [None] when [v] is not
    iterable. *)
Definition iterate (v : json) : option (list json) :=
  match v with
  | JArr items => Some items
  | JStr s => Some (chars s)
  | _ => None
  end.

(** An exception value: [e.name] and [e.message]. *)
Record exn := { exn_name : string; exn_message : string }.

Definition Error (msg : string) : exn :=
  {| exn_name := "Error"; exn_message := msg |}.
Definition TypeError (msg : string) : exn :=
  {| exn_name := "TypeError"; exn_message := msg |}.

(** [String(e)] *)
Definition exn_String (e : exn) : string :=
  if String.eqb (exn_message e) EmptyString then exn_name e
  else if String.eqb (exn_name e) EmptyString then exn_message e
  else exn_name e ++ ": " ++ exn_message e.

End JS.
Import JS.

(** ** Tool schema adapters *)

Module Adapter.

(** The schema given to a tool that brings none of its own. *)
Definition default_parameters : json :=
  JObj [("type", JStr "object"); ("properties", JObj []);
        ("additionalProperties", JBool true)].

(** [{ type: "function", function: { name, description, parameters } }] *)
Definition descriptor (name description : string) (parameters : json) : json :=
  JObj [("type", JStr "function");
        ("function", JObj [("name", JStr name);
                           ("description", JStr description);
                           ("parameters", parameters)])].

(** [(p && typeof p === "object") ? p : { type: "object", ... }] *)
Definition parameters_of (p : jsval) : json :=
  match p with
  | Some v => if (truthy p && typeof_object p)%bool then v else default_parameters
  | None => default_parameters
  end.

(** [t && t.type === "function" && t.function && t.function.name] *)
Definition openai_ready (t : json) : bool :=
  (truthy (Some t) && is_string (get t "type") "function"
   && truthy (get t "function")
   && truthy (opt_get (get t "function") "name"))%bool.

(** The body of [for (const t of list)] in [toOpenAITools], [out] being
    the array built so far.  [String(...)] is [js_String], which prints
    every value: where a name or a description hides [toString] the code
    raises instead, which [Raising.toOpenAITools_raises] decides. *)
Fixpoint toOpenAITools_loop (ts out : list json) : list json :=
  match ts with
  | [] => out
  | t :: rest =>
      if openai_ready t then
        let f := get t "function" in
        toOpenAITools_loop rest
          (out ++ [descriptor
                     (js_String (opt_get f "name"))
                     (js_String (js_or (opt_get f "description") (Some (JStr EmptyString))))
                     (parameters_of (opt_get f "parameters"))])
      else
        let name := trim (js_String (js_or (opt_get (Some t) "name") (Some (JStr EmptyString)))) in
        if String.eqb name EmptyString then toOpenAITools_loop rest out
        else
          toOpenAITools_loop rest
            (out ++ [descriptor name
                       (js_String (js_or (opt_get (Some t) "description") (Some (JStr EmptyString))))
                       (parameters_of (opt_get (Some t) "inputSchema"))])
  end.

(** [toOpenAITools(tools)] of the agent. *)
Definition toOpenAITools (tools : json) : json :=
  let ts := match tools with JArr items => items | _ => [] end in
  JArr (toOpenAITools_loop ts []).

(** [mcpToOpenAITools(mcpTools)] of the registry server, with the same
    [js_String] for [String(...)]. *)
Definition mcpToOpenAITools (mcpTools : json) : json :=
  let ts := match mcpTools with JArr items => items | _ => [] end in
  JArr (filter (fun x => truthy (opt_get (get x "function") "name"))
          (map (fun t =>
                  descriptor
                    (js_String (js_or (opt_get (Some t) "name") (Some (JStr EmptyString))))
                    (js_String (js_or (opt_get (Some t) "description") (Some (JStr EmptyString))))
                    (parameters_of (opt_get (Some t) "inputSchema")))
             ts)).

End Adapter.
Import Adapter.

(** ** The agent: [POST /api/agent/chat] for an OpenAI-compatible provider *)

Module Agent.

(** A conversation message.  [tool_calls] and [tool_call_id] are
    [undefined] on the messages that do not carry them. *)
Record message := {
  role : string;
  content : json;
  tool_calls : jsval;
  tool_call_id : jsval
}.

Definition text_message (r c : string) : message :=
  {| role := r; content := JStr c; tool_calls := None; tool_call_id := None |}.

(** What [fetch] resolves to: status, [content-type] header, body text
    and, in [parsed], the value of [JSON.parse] on that text ([None] when
    it raises). *)
Record response := {
  status : Z;
  content_type : option string;
  text : string;
  parsed : option json
}.

(** [r.ok] *)
Definition ok (r : response) : bool :=
  (Z.leb 200 (status r) && Z.leb (status r) 299)%bool.

(** A [fetch] either rejects (network failure) or resolves. *)
Inductive fetched :=
| Rejected (e : exn)
| Responded (r : response).

(** The network as one run of the handler meets it: the answer to the
    [k]-th chat completion request, to the tool-list request and to the
    [k]-th tool invocation. *)
Record env := {
  provider : nat -> fetched;
  registry_tools : fetched;
  registry_call : nat -> fetched
}.

(** Body of a chat completion request, as far as the loop decides it. *)
Record chat_request := {
  req_messages : list message;
  req_tools : jsval;
  req_tool_choice : option string
}.

(** Requests sent, in the order they are sent. *)
Inductive event :=
| TxTools (tenant : string)
| TxChat (rq : chat_request)
| TxCall (body : json).

Definition is_chat (ev : event) : bool :=
  match ev with TxChat _ => true | _ => false end.
Definition is_call (ev : event) : bool :=
  match ev with TxCall _ => true | _ => false end.

Definition chats (t : list event) : nat := List.length (filter is_chat t).
Definition calls (t : list event) : nat := List.length (filter is_call t).

(** The handler's variables [messages] and [loopMessages], and the
    requests sent so far. *)
Record state := {
  messages : list message;
  loopMessages : list message;
  trace : list event
}.

(** [res.status(code).json(payload)] *)
Record reply := { code : Z; payload : json }.

(** Computations that read and write the state and may raise. *)
Inductive result (A : Type) :=
| Val (a : A)
| Throw (e : exn).
Arguments Val {A} a.
Arguments Throw {A} e.

Definition M (A : Type) : Type := state -> result A * state.

Definition ret {A} (a : A) : M A := fun s => (Val a, s).
Definition throw {A} (e : exn) : M A := fun s => (Throw e, s).
Definition bind {A B} (m : M A) (k : A -> M B) : M B :=
  fun s =>
    match m s with
    | (Val a, s') => k a s'
    | (Throw e, s') => (Throw e, s')
    end.

Notation "x <- m ;; k" := (bind m (fun x => k))
  (at level 61, m at next level, right associativity).
Notation "m ;;; k" := (bind m (fun _ => k))
  (at level 61, right associativity).

Definition emit (ev : event) : M unit :=
  fun s => (Val tt, {| messages := messages s;
                       loopMessages := loopMessages s;
                       trace := trace s ++ [ev] |}).

(** [loopMessages.push(m)] *)
Definition push_loop (m : message) : M unit :=
  fun s => (Val tt, {| messages := messages s;
                       loopMessages := loopMessages s ++ [m];
                       trace := trace s |}).

(** [let loopMessages = messages.slice()] *)
Definition copy_messages : M unit :=
  fun s => (Val tt, {| messages := messages s;
                       loopMessages := messages s;
                       trace := trace s |}).

(** [messages.length = 0; loopMessages.forEach(m => messages.push(m))] *)
Definition update_messages : M unit :=
  fun s => (Val tt, {| messages := loopMessages s;
                       loopMessages := loopMessages s;
                       trace := trace s |}).

Definition lift {A} (x : result A) : M A := fun s => (x, s).

Definition await (f : fetched) : M response :=
  match f with
  | Rejected e => throw e
  | Responded r => ret r
  end.

(** [await fetch(...)]: the request goes out, then the environment's
    answer for it comes back. *)
Definition fetch (ev : event) (answer : list event -> fetched) : M response :=
  fun s => (emit ev ;;; await (answer (trace s))) s.

Section Handler.

(** [JSON.parse] on a string, [None] when it raises, and
    [JSON.stringify]. *)
Variable JSON_parse : string -> option json.
Variable JSON_stringify : json -> string.

Variable E : env.

(** The tail of [openaiCompatChat], from [await r.text()] on: what the
    function returns or raises once the provider has answered [r]. *)
Definition completion_of (r : response) : result json :=
  let raw := text r in
  let ct := toLowerCase (match content_type r with
                         | Some h => h
                         | None => EmptyString
                         end) in
  let j := if includes ct "application/json"
           then match parsed r with Some v => v | None => JNull end
           else JNull in
  if negb (ok r)
  then Throw (Error (js_String
                       (js_or (opt_get (opt_get (Some j) "error") "message")
                              (Some (JStr (substring 0 400 raw))))))
  else Val j.

(** The request body [openaiCompatChat] posts. *)
Definition chat_request_of (msgs : list message) (tools : json) : chat_request :=
  {| req_messages := msgs;
     req_tools := if truthy (js_length tools) then Some tools else None;
     req_tool_choice := if truthy (js_length tools) then Some "auto" else None |}.

(** [openaiCompatChat(base, apiKey, compatModel, tools)] *)
Definition openaiCompatChat (tools : json) : M json :=
  fun s =>
    (r <- fetch (TxChat (chat_request_of (messages s) tools))
                (fun t => provider E (chats t)) ;;
     lift (completion_of r)) s.

(** [out?.choices?.[0]?.message] *)
Definition first_message (out : json) : jsval :=
  opt_get (opt_first (opt_get (Some out) "choices")) "message".

(** The three values the loop reads off a completion [out]. *)
Definition msg_of (out : json) : json := or_else (first_message out) (JObj []).
Definition toolCalls_of (out : json) : json :=
  or_else (opt_get (Some (msg_of out)) "tool_calls") (JArr []).
Definition content_of (out : json) : json :=
  or_else (opt_get (Some (msg_of out)) "content") (JStr EmptyString).

(** [JSON.stringify({ name, args, tenant })]: an [undefined] name
    leaves no property behind. *)
Definition call_body (name : jsval) (args : json) (tenant : string) : json :=
  JObj ((match name with Some n => [("name", n)] | None => [] end)
        ++ [("args", args); ("tenant", JStr tenant)]).

(** [try { args = JSON.parse(argsStr) } catch { args = { raw: argsStr } }] *)
Definition parse_args (argsStr : json) : json :=
  match JSON_parse (String_of argsStr) with
  | Some v => v
  | None => JObj [("raw", argsStr)]
  end.

(** Body of [for (const tc of toolCalls)]. *)
Definition run_tool_call (tenant : string) (tc : json) : M unit :=
  let name := opt_get (opt_get (Some tc) "function") "name" in
  let argsStr := or_else (opt_get (opt_get (Some tc) "function") "arguments") (JStr "{}") in
  let args := parse_args argsStr in
  callResp <- fetch (TxCall (call_body name args tenant))
                    (fun t => registry_call E (calls t)) ;;
  callJson <- match parsed callResp with
              | Some v => ret v
              | None => throw {| exn_name := "FetchError";
                                 exn_message := "invalid json response body" |}
              end ;;
  id <- match tc with
        | JNull => throw (TypeError "Cannot read properties of null (reading 'id')")
        | _ => ret (get tc "id")
        end ;;
  push_loop {| role := "tool"; content := JStr (JSON_stringify callJson);
               tool_calls := None; tool_call_id := id |}.

Fixpoint for_each (items : list json) (body : json -> M unit) : M unit :=
  match items with
  | [] => ret tt
  | x :: rest => body x ;;; for_each rest body
  end.

(** [for (const x of v) body] *)
Definition for_of (v : json) (body : json -> M unit) : M unit :=
  match iterate v with
  | Some items => for_each items body
  | None => throw (TypeError "toolCalls is not iterable")
  end.

(** What one pass through the body of the [for] loop ends with. *)
Inductive step :=
| Return (r : reply)
| Continue.

Definition reply_json (c : json) : reply :=
  {| code := 200; payload := JObj [("reply", c)] |}.

(** The body of [for (let i = 0; i < 6; i++)] from [const msg = ...]
    on, [out] being what [openaiCompatChat] returned. *)
Definition handle_completion (tenant : string) (out : json) : M step :=
  let toolCalls := toolCalls_of out in
  let content := content_of out in
  if negb (truthy (js_length toolCalls)) then ret (Return (reply_json content))
  else
    push_loop {| role := "assistant"; content := content;
                 tool_calls := Some toolCalls; tool_call_id := None |} ;;;
    for_of toolCalls (run_tool_call tenant) ;;;
    update_messages ;;;
    ret Continue.

(** Body of [for (let i = 0; i < 6; i++)]. *)
Definition iteration (tenant : string) (tools : json) : M step :=
  out <- openaiCompatChat tools ;;
  handle_completion tenant out.

(** [for (let i = 0; i < n; i++) body] followed by [after]; the body
    does not read [i]. *)
Fixpoint for_loop (n : nat) (body : M step) (after : M reply) : M reply :=
  match n with
  | O => after
  | S n' =>
      st <- body ;;
      match st with
      | Return r => ret r
      | Continue => for_loop n' body after
      end
  end.

Definition exceeded : reply :=
  reply_json (JStr "Tool orchestration exceeded max iterations.").

(** The tool-call loop proper, once the tool list is known. *)
Definition tool_loop (tenant : string) (tools : json) : M reply :=
  copy_messages ;;;
  for_loop 6 (iteration tenant tools) (ret exceeded).

(** [Array.isArray(toolsJson?.tools) ? toolsJson.tools : []] *)
Definition rawTools_of (toolsResp : response) : json :=
  let toolsJson := match parsed toolsResp with Some v => v | None => JNull end in
  match opt_get (Some toolsJson) "tools" with
  | Some (JArr items) => JArr items
  | _ => JArr []
  end.

(** The request settings the branch reads. *)
Record config := {
  cfg_provider : string;
  cfg_system : string;
  cfg_text : string;
  cfg_enableTools : bool;
  cfg_mcpUrl : string;
  cfg_tenant : string;
  cfg_apiKey : string;
  cfg_base : string
}.

Definition error_reply (c : Z) (kind detail : string) : reply :=
  {| code := c; payload := JObj [("error", JStr kind); ("detail", JStr detail)] |}.

(** The branch [if (openaiCompatProviders.has(provider)) { ... }]. *)
Definition openai_compat (c : config) : M reply :=
  if String.eqb (cfg_apiKey c) EmptyString then
    ret (error_reply 400 "missing_api_key" ("Missing " ++ cfg_provider c ++ " API key"))
  else if String.eqb (cfg_base c) EmptyString then
    ret (error_reply 400 "missing_base" ("Missing " ++ cfg_provider c ++ " base URL"))
  else if negb (cfg_enableTools c && negb (String.eqb (cfg_mcpUrl c) EmptyString))%bool then
    out <- openaiCompatChat (JArr []) ;;
    ret (reply_json
           (or_else (opt_get (first_message out) "content") (JStr EmptyString)))
  else
    toolsResp <- fetch (TxTools (cfg_tenant c)) (fun _ => registry_tools E) ;;
    let tools := toOpenAITools (rawTools_of toolsResp) in
    tool_loop (cfg_tenant c) tools.

(** [messages] as built before the provider branches. *)
Definition initial_messages (c : config) : list message :=
  (if String.eqb (cfg_system c) EmptyString then [] else [text_message "system" (cfg_system c)])
  ++ [text_message "user" (cfg_text c)].

Definition initial_state (c : config) : state :=
  {| messages := initial_messages c; loopMessages := []; trace := [] |}.

(** [String(e?.message || e)] *)
Definition detail_of (e : exn) : string :=
  if String.eqb (exn_message e) EmptyString then exn_String e else exn_message e.

(** [try { ... } catch (e) { return res.status(500).json(...) }] *)
Definition catch_all (m : M reply) : state -> reply * state :=
  fun s =>
    match m s with
    | (Val r, s') => (r, s')
    | (Throw e, s') => (error_reply 500 "agent_failed" (detail_of e), s')
    end.

(** The handler, for a request whose provider is OpenAI-compatible. *)
Definition agent_chat (c : config) : reply * state :=
  catch_all (openai_compat c) (initial_state c).

End Handler.

End Agent.
Import Agent.

(** ** Objects that hide [toString] *)

Module Printing.

(** [String(v)] and [v.toString()] call the built-in [toString] of an
    object unless the object has an own property of that name, which,
    coming out of [JSON.parse], is no function; an array prints its
    elements in the same way. *)
Fixpoint printable (v : json) : bool :=
  match v with
  | JObj fields =>
      match lookup "toString" fields with
      | Some _ => false
      | None => true
      end
  | JArr items => forallb printable items
  | _ => true
  end.

(** [String(v)], raising where the built-in is hidden. *)
Definition ToString (v : jsval) : result string :=
  match v with
  | None => Val "undefined"
  | Some w =>
      if printable w then Val (String_of w)
      else Throw (TypeError "Cannot convert object to primitive value")
  end.

(** [v.toString()] for a truthy [v]. *)
Definition toString (v : jsval) : result string :=
  match v with
  | None => Throw (TypeError "Cannot read properties of undefined (reading 'toString')")
  | Some w =>
      if printable w then Val (String_of w)
      else Throw (TypeError "toString is not a function")
  end.

End Printing.
Import Printing.

(** ** The handler where the adapter raises *)

Module Raising.

(** The value [v] hides [toString]: [String(v)] raises. *)
Definition hidden (v : jsval) : bool :=
  match v with
  | Some w => negb (printable w)
  | None => false
  end.

(** [toOpenAITools] raises on the raw tool [t]: it applies [String] to
    the name and to the description under [function] of a tool that is
    OpenAI-ready, and otherwise to the name at the top and, unless that
    name is blank, to the description at the top; a value that hides
    [toString] is truthy, so that [|| ""] leaves it in place. *)
Definition adapter_raises (t : json) : bool :=
  if openai_ready t then
    (hidden (opt_get (get t "function") "name")
     || hidden (opt_get (get t "function") "description"))%bool
  else
    (hidden (opt_get (Some t) "name")
     || (negb (String.eqb
                 (trim (js_String (js_or (opt_get (Some t) "name")
                                         (Some (JStr EmptyString)))))
                 EmptyString)
         && hidden (opt_get (Some t) "description")))%bool.

(** [toOpenAITools(rawTools)] raises. *)
Definition toOpenAITools_raises (rawTools : json) : bool :=
  match rawTools with
  | JArr items => existsb adapter_raises items
  | _ => false
  end.

(** The request settings send the handler into the tool-call loop. *)
Definition tools_enabled (c : config) : bool :=
  (negb (String.eqb (cfg_apiKey c) EmptyString)
   && negb (String.eqb (cfg_base c) EmptyString)
   && cfg_enableTools c
   && negb (String.eqb (cfg_mcpUrl c) EmptyString))%bool.

(** [POST /api/agent/chat] for an OpenAI-compatible provider, with the
    [TypeError] of the adapter: it is raised once the tool list has been
    fetched, before any completion is requested, and the handler's
    [catch] answers it. *)
Definition chat_handler (JSON_parse : string -> option json)
    (JSON_stringify : json -> string) (E : env) (c : config) : reply * state :=
  match registry_tools E with
  | Responded toolsResp =>
      if (tools_enabled c && toOpenAITools_raises (rawTools_of toolsResp))%bool
      then ({| code := 500;
               payload := JObj [("error", JStr "agent_failed");
                                ("detail",
                                 JStr "Cannot convert object to primitive value")] |},
            {| messages := initial_messages c; loopMessages := [];
               trace := [TxTools (cfg_tenant c)] |})
      else agent_chat JSON_parse JSON_stringify E c
  | Rejected _ => agent_chat JSON_parse JSON_stringify E c
  end.

End Raising.
Import Raising.

(** ** The registry server: [mcp-server/server.mjs] *)

Module Registry.

(** A JavaScript number as the trace endpoint meets it: an integer or
    [NaN]. *)
Inductive number :=
| NaN
| Int (z : Z).

(** [Math.min(a, b)] *)
Definition Math_min (a b : number) : number :=
  match a, b with
  | Int x, Int y => Int (Z.min x y)
  | _, _ => NaN
  end.

(** Unary minus; [-0] and [0] are the same index. *)
Definition neg (a : number) : number :=
  match a with
  | NaN => NaN
  | Int x => Int (- x)
  end.

Section Log.

Variable entry : Type.

(** [while (_log.length > LOG_MAX) _log.shift()] *)
Fixpoint shift_while (LOG_MAX : nat) (log : list entry) : list entry :=
  match log with
  | [] => []
  | _ :: rest =>
      if Nat.ltb LOG_MAX (List.length log) then shift_while LOG_MAX rest else log
  end.

(** [pushLog], [e] being the entry it builds. *)
Definition pushLog (LOG_MAX : nat) (log : list entry) (e : entry) : list entry :=
  shift_while LOG_MAX (log ++ [e]).

(** [arr.slice(start)]: a [NaN] start counts as 0, a negative start
    counts from the end. *)
Definition slice (start : number) (arr : list entry) : list entry :=
  let len := Z.of_nat (List.length arr) in
  let rel := match start with NaN => 0%Z | Int z => z end in
  let k := if Z.ltb rel 0 then Z.max (len + rel) 0 else Z.min rel len in
  skipn (Z.to_nat k) arr.

(** The [events] of [GET /api/logs].  [query_limit] is [None] when the
    query has no [limit] or an empty one, and otherwise [Number] of its
    text. *)
Definition logs (LOG_MAX : nat) (log : list entry) (query_limit : option number)
  : list entry :=
  let limit :=
    Math_min (match query_limit with Some n => n | None => Int 200 end)
             (Int (Z.of_nat LOG_MAX)) in
  slice (neg limit) log.

End Log.

(** [s.replace] of one trailing slash by nothing *)
Definition strip_slash (s : string) : string :=
  if endsWith s "/" then substring 0 (String.length s - 1) s else s.

(** [mkBaseApi(base)]; [None] is its [null]. *)
Definition mkBaseApi (base : jsval) : option string :=
  if negb (truthy base) then None
  else
    let b := strip_slash (js_String base) in
    if (endsWith b "/api" || endsWith b "/api/")%bool then Some b
    else if (endsWith b "/maximo" || endsWith b "/maximo/")%bool then Some (b ++ "/api")%string
    else Some (b ++ "/maximo/api")%string.

(** Replace or add own property [k]. *)
Fixpoint set_field (k : string) (v : json) (fields : list (string * json))
  : list (string * json) :=
  match fields with
  | [] => [(k, v)]
  | (k', v') :: rest =>
      if String.eqb k k' then (k, v) :: rest else (k', v') :: set_field k v rest
  end.

(** [loadTenants()]: [tenants_json] is the parsed [TENANTS_JSON] when
    the variable is set and parses; the four strings are the [MAXIMO_*]
    variables, [None] when unset. *)
Definition loadTenants (tenants_json : option json)
    (url apikey user password : option string) : json :=
  match tenants_json with
  | Some v => v
  | None =>
      let field k (o : option string) :=
        match o with Some x => [(k, JStr x)] | None => [] end in
      JObj [("default",
             JObj (field "baseUrl" url ++ field "apiKey" apikey
                   ++ field "user" user ++ field "password" password))]
  end.

(** The names of the members every object inherits from
    [Object.prototype]. *)
Definition Object_prototype : list string :=
  ["constructor"; "__defineGetter__"; "__defineSetter__"; "hasOwnProperty";
   "__lookupGetter__"; "__lookupSetter__"; "isPrototypeOf";
   "propertyIsEnumerable"; "toString"; "valueOf"; "__proto__"; "toLocaleString"].

Definition inherited (k : string) : bool := existsb (String.eqb k) Object_prototype.

(** [items[k]] for a name [k] that is the index of an element, the
    first of [items] having the index [i]. *)
Fixpoint element (k : string) (i : nat) (items : list json) : jsval :=
  match items with
  | [] => None
  | x :: rest =>
      if String.eqb (string_of_Z (Z.of_nat i)) k then Some x else element k (S i) rest
  end.

(** [tenants[tenantId] || tenants.default] for a registry that is not
    [null], as far as [tenantOrThrow] reads it.  On an object an own
    property comes first; the name of an inherited member finds that
    member, a function (the prototype object for [__proto__]): it is
    truthy, so that [tenants.default] is not consulted, and it has no
    [baseUrl]; any other name leaves [tenants.default].  An array has its
    elements under their indices, and a string, a number or a boolean
    nothing that is an object; they have no [default].  [None] is
    [undefined] or a value that, like it, is no object with a
    [baseUrl]. *)
Definition resolve (tenants : json) (tenantId : string) : jsval :=
  match tenants with
  | JObj fields =>
      match lookup tenantId fields with
      | Some v => js_or (Some v) (lookup "default" fields)
      | None => if inherited tenantId then None else lookup "default" fields
      end
  | JArr items => element tenantId 0 items
  | _ => None
  end.

(** [tenantOrThrow(tenantId)], [tenants] being what [loadTenants()]
    returned.  Reading a property of [null] raises, and so does the
    [String(base)] of [mkBaseApi] on a base URL that hides [toString]. *)
Definition tenantOrThrow (tenants : json) (tenantId : string) : result json :=
  match tenants with
  | JNull =>
      Throw (TypeError ("Cannot read properties of null (reading '" ++ tenantId ++ "')"))
  | _ =>
      let t := resolve tenants tenantId in
      if (negb (truthy t) || negb (truthy (opt_get t "baseUrl")))%bool
      then Throw (Error ("Tenant is not configured: " ++ tenantId))
      else
        match ToString (opt_get t "baseUrl") with
        | Throw e => Throw e
        | Val _ =>
            match mkBaseApi (opt_get t "baseUrl") with
            | Some (String c rest) =>
                match t with
                | Some (JObj fields) =>
                    Val (JObj (set_field "api" (JStr (String c rest)) fields))
                | _ => Val (JObj [("api", JStr (String c rest))])
                end
            | _ => Throw (Error ("Bad Maximo URL for tenant: " ++ tenantId))
            end
        end
  end.

(** The tool identifier and the arguments [POST /mcp/call] reads off the
    request body. *)
Definition call_tool (body : json) : jsval := js_or (get body "tool") (get body "name").
Definition call_args (body : json) : json := or_else (get body "args") (JObj []).

(** Which arm of [POST /mcp/call] a tool identifier selects. *)
Inductive action :=
| ListOS
| QueryOS
| Create
| UnknownTool.

Definition dispatch (tool : jsval) : action :=
  if is_string tool "maximo.listOS" then ListOS
  else if is_string tool "maximo.queryOS" then QueryOS
  else if is_string tool "maximo.create" then Create
  else UnknownTool.

End Registry.
Import Registry.

(** ** Vocabulary of the statements *)

(** What [toOpenAITools] makes of a single raw descriptor: nothing, or
    one descriptor. *)
Definition adapt (t : json) : list json := toOpenAITools_loop [t] [].

(** [d.function.name] of a descriptor. *)
Definition name_of (d : json) : jsval := opt_get (get d "function") "name".

(** The descriptor carries a non-empty name. *)
Definition named (d : json) : Prop := truthy (name_of d) = true.

(** [toolsJson.tools] of a parsed tool-list body. *)
Definition items_of_tool_list (toolsJson : json) : json :=
  match get toolsJson "tools" with Some v => v | None => JArr [] end.

(** The elements of an array. *)
Definition items_of (v : json) : list json :=
  match v with JArr items => items | _ => [] end.

(** A canonical descriptor whose name is an empty array: well-formed
    JSON, and a truthy [t.function.name]. *)
Definition array_named : json :=
  JObj [("type", JStr "function"); ("function", JObj [("name", JArr [])])].

(** The state once the requests [evs] have gone out. *)
Definition sent (s : state) (evs : list event) : state :=
  {| messages := messages s; loopMessages := loopMessages s;
     trace := trace s ++ evs |}.

(** The assistant message the loop appends for a completion [out]. *)
Definition assistant_message (out : json) : message :=
  {| role := "assistant"; content := content_of out;
     tool_calls := Some (toolCalls_of out); tool_call_id := None |}.

(** The tool message the loop appends for the call [tc] answered by
    [callJson]. *)
Definition tool_message (JSON_stringify : json -> string) (tc callJson : json)
  : message :=
  {| role := "tool"; content := JStr (JSON_stringify callJson);
     tool_calls := None; tool_call_id := get tc "id" |}.

(** The body of the invocation request the loop posts for [tc]. *)
Definition call_request (JSON_parse : string -> option json) (tenant : string)
    (tc : json) : json :=
  call_body (opt_get (opt_get (Some tc) "function") "name")
    (parse_args JSON_parse
       (or_else (opt_get (opt_get (Some tc) "function") "arguments") (JStr "{}")))
    tenant.

(** The registry answers invocation number [k] with a JSON body,
    whatever the status. *)
Definition answered (E : env) (k : nat) : Prop :=
  exists r v, registry_call E k = Responded r /\ parsed r = Some v.

(** That JSON body. *)
Definition answer_of (E : env) (k : nat) : json :=
  match registry_call E k with
  | Responded r => match parsed r with Some v => v | None => JNull end
  | Rejected _ => JNull
  end.

(** The tool messages for the calls [tcs], the first of which is
    invocation number [k]. *)
Fixpoint tool_messages (JSON_stringify : json -> string) (E : env) (k : nat)
    (tcs : list json) : list message :=
  match tcs with
  | [] => []
  | tc :: rest =>
      tool_message JSON_stringify tc (answer_of E k)
      :: tool_messages JSON_stringify E (S k) rest
  end.

(** The registry either answers invocation number [k] with a JSON body
    or cannot be reached for it. *)
Definition answered_or_rejected (E : env) (k : nat) : Prop :=
  answered E k \/ exists e, registry_call E k = Rejected e.

(** The network failure that the invocations for [tcs] meet first, the
    first of them being invocation number [k]; [None] when the registry
    is reached for all of them. *)
Fixpoint first_rejection (E : env) (k : nat) (tcs : list json) : option exn :=
  match tcs with
  | [] => None
  | _ :: rest =>
      match registry_call E k with
      | Rejected e => Some e
      | Responded _ => first_rejection E (S k) rest
      end
  end.

(** The provider answers completion request number [k] with [out]. *)
Definition completes (E : env) (k : nat) (out : json) : Prop :=
  exists r, provider E k = Responded r /\ completion_of r = Val out.

(** The completion [out] carries the tool calls [tcs], at least one. *)
Definition requests_tools (out : json) (tcs : list json) : Prop :=
  toolCalls_of out = JArr tcs /\ tcs <> [] /\ Forall (fun tc => tc <> JNull) tcs.

(** The state of the loop after one more completed pass. *)
Definition after_pass (JSON_parse : string -> option json)
    (JSON_stringify : json -> string) (E : env) (tenant : string) (tools : json)
    (s : state) (out : json) (tcs : list json) : state :=
  let conv := loopMessages s ++ assistant_message out
                :: tool_messages JSON_stringify E (calls (trace s)) tcs in
  {| messages := conv; loopMessages := conv;
     trace := trace s ++ TxChat (chat_request_of (messages s) tools)
                :: map (fun tc => TxCall (call_request JSON_parse tenant tc)) tcs |}.

(** [s] is reached from [s0] by [n] passes of the loop body that ran to
    their end. *)
Inductive after_iterations (JSON_parse : string -> option json)
    (JSON_stringify : json -> string) (E : env) (tenant : string) (tools : json)
    (s0 : state) : nat -> state -> Prop :=
| passes_none : after_iterations JSON_parse JSON_stringify E tenant tools s0 0 s0
| passes_more n s s' :
    after_iterations JSON_parse JSON_stringify E tenant tools s0 n s ->
    iteration JSON_parse JSON_stringify E tenant tools s = (Val Continue, s') ->
    after_iterations JSON_parse JSON_stringify E tenant tools s0 (S n) s'.

(** The ids an assistant message asks answers for, in order. *)
Definition call_ids (m : message) : list jsval :=
  if String.eqb (role m) "assistant" then
    match tool_calls m with
    | Some v =>
        match iterate v with
        | Some tcs => map (fun tc => get tc "id") tcs
        | None => []
        end
    | None => []
    end
  else [].

(** The alternation of a conversation: [pending] being the ids still to
    be answered, every tool message answers the first pending id, and no
    other message comes while an id is pending. *)
Fixpoint alternates (pending : list jsval) (conv : list message) : Prop :=
  match conv with
  | [] => pending = []
  | m :: rest =>
      if String.eqb (role m) "tool" then
        match pending with
        | id :: more => tool_call_id m = id /\ alternates more rest
        | [] => False
        end
      else pending = [] /\ alternates (call_ids m) rest
  end.

(** The request settings send the handler into the tool-call loop. *)
Definition tools_on (c : config) : Prop :=
  cfg_apiKey c <> EmptyString /\ cfg_base c <> EmptyString
  /\ cfg_enableTools c = true /\ cfg_mcpUrl c <> EmptyString.

(** What [POST /mcp/call] gets out of an invocation request of the
    loop. *)
Definition names_tool_under_name (ev : event) : Prop :=
  match ev with
  | TxCall body =>
      get body "tool" = None
      /\ call_tool body = get body "name"
      /\ dispatch (get body "tool") = UnknownTool
  | _ => True
  end.

(** At most [n] completion requests, and invocation requests of the
    shape the registry's fallback needs. *)
Definition within (n : nat) (evs : list event) : Prop :=
  chats evs <= n /\ Forall names_tool_under_name evs.

(** Whatever the state it starts in and however it ends, [m] only adds
    requests to the trace, and those are [within n]. *)
Definition emits {A : Type} (n : nat) (m : M A) : Prop :=
  forall s, exists evs, trace (snd (m s)) = trace s ++ evs /\ within n evs.

(** The answer to the tool-list request holds no list of tools: its
    body is not JSON, or has no array under [tools]. *)
Definition no_tool_list (r : response) : Prop :=
  match parsed r with
  | None => True
  | Some v => forall items, opt_get (Some v) "tools" <> Some (JArr items)
  end.

(** ** Sample inputs *)

Module Sample.

(** A stand-in for [JSON.parse] that knows one text, the empty object. *)
Definition parse_braces (s : string) : option json :=
  if String.eqb s "{}" then Some (JObj []) else None.

Definition quote : string := String (ascii_of_nat 34) EmptyString.
Definition backslash : string := String (ascii_of_nat 92) EmptyString.

Fixpoint escape (s : string) : string :=
  match s with
  | EmptyString => EmptyString
  | String c rest =>
      ((if (Nat.eqb (nat_of_ascii c) 34 || Nat.eqb (nat_of_ascii c) 92)%bool
        then backslash else EmptyString)
       ++ String c (escape rest))%string
  end.

(** [JSON.stringify] on values whose strings hold no control
    character. *)
Fixpoint stringify (v : json) : string :=
  match v with
  | JNull => "null"
  | JBool true => "true"
  | JBool false => "false"
  | JNum z => string_of_Z z
  | JStr s => quote ++ escape s ++ quote
  | JArr items => "[" ++ String.concat "," (map stringify items) ++ "]"
  | JObj fields =>
      "{" ++ String.concat ","
               (map (fun kv => match kv with
                               | (k, x) => quote ++ escape k ++ quote ++ ":" ++ stringify x
                               end) fields) ++ "}"
  end%string.

(** A resolved [fetch] with a JSON body. *)
Definition json_response (st : Z) (v : json) : fetched :=
  Responded {| status := st;
               content_type := Some "application/json; charset=utf-8";
               text := stringify v;
               parsed := Some v |}.

(** A resolved [fetch] with an HTML body. *)
Definition html_response (st : Z) : fetched :=
  Responded {| status := st;
               content_type := Some "text/html";
               text := "<html><body>Service Unavailable</body></html>";
               parsed := None |}.

Definition econnrefused : exn :=
  {| exn_name := "FetchError";
     exn_message := "request to http://mcp-server:8081 failed, reason: connect ECONNREFUSED" |}.

Definition list_call : json :=
  JObj [("id", JStr "call_1"); ("type", JStr "function");
        ("function", JObj [("name", JStr "maximo.listOS"); ("arguments", JStr "{}")])].

(** A completion that asks for one tool call. *)
Definition calling : json :=
  JObj [("choices",
         JArr [JObj [("message",
                      JObj [("role", JStr "assistant"); ("content", JNull);
                            ("tool_calls", JArr [list_call])])]])].

(** A completion that answers in text. *)
Definition final : json :=
  JObj [("choices",
         JArr [JObj [("message",
                      JObj [("role", JStr "assistant"); ("content", JStr "done")])]])].

Definition tool_list : json :=
  JObj [("tools", JArr [JObj [("name", JStr "maximo.listOS");
                              ("description", JStr "List object structures (/os)")]])].

Definition mcp_failed : json :=
  JObj [("error", JStr "mcp_failed"); ("detail", JStr "FetchError: socket hang up")].

Definition request : config :=
  {| cfg_provider := "openai"; cfg_system := "You are a Maximo assistant.";
     cfg_text := "hello"; cfg_enableTools := true;
     cfg_mcpUrl := "http://mcp-server:8081"; cfg_tenant := "default";
     cfg_apiKey := "sk-test"; cfg_base := "https://api.openai.com" |}.

(** One tool call, then a final answer. *)
Definition call_then_final (k : nat) : fetched :=
  match k with
  | O => json_response 200 calling
  | _ => json_response 200 final
  end.

(** The registry answers every invocation with a 502 and a JSON error
    body. *)
Definition registry_failing : env :=
  {| provider := call_then_final;
     registry_tools := json_response 200 tool_list;
     registry_call := fun _ => json_response 502 mcp_failed |}.

(** The registry lists its tools but cannot be reached for the
    invocation. *)
Definition registry_unreachable : env :=
  {| provider := call_then_final;
     registry_tools := json_response 200 tool_list;
     registry_call := fun _ => Rejected econnrefused |}.

(** The provider asks for a tool call in every reply; the registry
    answers them all. *)
Definition always_calling : env :=
  {| provider := fun _ => json_response 200 calling;
     registry_tools := json_response 200 tool_list;
     registry_call := fun _ => json_response 200 (JObj [("member", JArr [])]) |}.

(** The provider asks for a tool call in every reply; the invocations
    meet a network failure. *)
Definition always_calling_unreachable : env :=
  {| provider := fun _ => json_response 200 calling;
     registry_tools := json_response 200 tool_list;
     registry_call := fun _ => Rejected econnrefused |}.

(** A completion whose only tool call is [null], from a provider that
    sends it to every request; the registry answers. *)
Definition calling_null : json :=
  JObj [("choices",
         JArr [JObj [("message",
                      JObj [("role", JStr "assistant"); ("content", JNull);
                            ("tool_calls", JArr [JNull])])]])].
Definition always_calling_null : env :=
  {| provider := fun _ => json_response 200 calling_null;
     registry_tools := json_response 200 tool_list;
     registry_call := fun _ => json_response 200 (JObj [("member", JArr [])]) |}.

(** A tool list with a description that hides [toString], from a
    registry that answers every request; the provider asks for a tool
    call in every reply. *)
Definition hiding_tool_list : json :=
  JObj [("tools", JArr [JObj [("name", JStr "maximo.listOS");
                              ("description", JObj [("toString", JNull)])]])].
Definition always_calling_hidden : env :=
  {| provider := fun _ => json_response 200 calling;
     registry_tools := json_response 200 hiding_tool_list;
     registry_call := fun _ => json_response 200 (JObj [("member", JArr [])]) |}.

(** The tool-list request meets a network failure. *)
Definition tools_unreachable : env :=
  {| provider := fun _ => json_response 200 final;
     registry_tools := Rejected econnrefused;
     registry_call := fun _ => json_response 200 (JObj []) |}.

(** The tool-list request is answered with an HTML error page. *)
Definition tools_unreadable : env :=
  {| provider := fun _ => json_response 200 final;
     registry_tools := html_response 503;
     registry_call := fun _ => json_response 200 (JObj []) |}.

(** The state in which the handler enters the loop. *)
Definition loop_entry : state :=
  {| messages := initial_messages request;
     loopMessages := initial_messages request;
     trace := [TxTools "default"] |}.

(** A registry with the [default] tenant only, and a call for a
    tenant that is not in it. *)
Definition tenants : json :=
  loadTenants None (Some "https://maximo.example.com") (Some "key") None None.
Definition call_for_constructor : json :=
  call_body (Some (JStr "maximo.listOS")) (JObj []) "constructor".

End Sample.

(** ** The registry server: [GET /mcp/tools] and the arms of [POST /mcp/call] *)

Module RegistryCall.

(** The list handed to [mcpToOpenAITools] by [GET /mcp/tools]. *)
Definition native_tools : json :=
  JArr
    [JObj [("name", JStr "maximo.listOS");
           ("description", JStr "List object structures (/os)");
           ("inputSchema",
            JObj [("type", JStr "object"); ("properties", JObj []);
                  ("additionalProperties", JBool false)])];
     JObj [("name", JStr "maximo.queryOS");
           ("description", JStr "Query an object structure with OSLC params");
           ("inputSchema",
            JObj [("type", JStr "object");
                  ("properties",
                   JObj [("os",
                          JObj [("type", JStr "string");
                                ("description", JStr "Object Structure name (e.g., MXWO)")]);
                         ("params",
                          JObj [("type", JStr "object");
                                ("description",
                                 JStr "OSLC query params (oslc.where, oslc.select, oslc.pageSize, ...)")])]);
                  ("required", JArr [JStr "os"]);
                  ("additionalProperties", JBool false)])];
     JObj [("name", JStr "maximo.create");
           ("description", JStr "Create record in an OS (POST)");
           ("inputSchema",
            JObj [("type", JStr "object");
                  ("properties",
                   JObj [("os",
                          JObj [("type", JStr "string");
                                ("description", JStr "Object Structure name")]);
                         ("body",
                          JObj [("type", JStr "object");
                                ("description", JStr "Record payload")])]);
                  ("required", JArr [JStr "os"; JStr "body"]);
                  ("additionalProperties", JBool false)])]].

(** The body of the answer of [GET /mcp/tools]. *)
Definition mcp_tools : json := JObj [("tools", mcpToOpenAITools native_tools)].

(** [authHeaders(t)]; the value of [Authorization] is [undefined]
    without an API key. *)
Definition authHeaders (t : json) : result (list (string * jsval)) :=
  match ToString (js_or (get t "apiKey") (Some (JStr EmptyString))) with
  | Throw e => Throw e
  | Val apiKey =>
      Val [("accept", Some (JStr "application/json"));
           ("apikey", Some (JStr apiKey));
           ("x-api-key", Some (JStr apiKey));
           ("Authorization",
            if String.eqb apiKey EmptyString then None
            else Some (JStr ("Apikey " ++ apiKey)))]
  end.

(** A [fetch] of the registry server towards Maximo; [mx_body] is what
    [JSON.stringify] is applied to. *)
Record maximo_request := {
  mx_method : string;
  mx_url : string;
  mx_headers : list (string * jsval);
  mx_body : option json
}.

(** What the handler answers: [res.status(c).json(v)], or
    [res.status(c).type(ctype).send(body)]. *)
Inductive answer :=
| SendJson (c : Z) (v : json)
| SendText (c : Z) (ctype : string) (body : string).

(** What [r.json()] raises on a body that is not JSON; the library's
    message goes on with the URL and the parser's reason. *)
Definition invalid_json : exn :=
  {| exn_name := "FetchError"; exn_message := "invalid json response body" |}.

(** The [catch] around the arms. *)
Definition mcp_failed (e : exn) : answer :=
  SendJson 502 (JObj [("error", JStr "mcp_failed"); ("detail", JStr (exn_String e))]).

(** [res.status(r.status).type(r.headers.get("content-type") ||
    "application/json").send(body)] *)
Definition forward (r : response) : answer :=
  SendText (status r)
    (match content_type r with
     | Some (String c h) => String c h
     | _ => "application/json"
     end)
    (text r).

(** [res.status(r.status).json(await r.json())] *)
Definition reserialize (r : response) : answer :=
  match parsed r with
  | Some v => SendJson (status r) v
  | None => mcp_failed invalid_json
  end.

Definition os_required : answer :=
  SendJson 400 (JObj [("error", JStr "args.os is required")]).

(** An arm from its [fetch] on: the request [rq], when building it did
    not raise, goes out and meets [maximo]; [pass_on] makes the answer
    out of a response. *)
Definition attempt (rq : result maximo_request) (maximo : fetched)
    (pass_on : response -> answer) : answer * list maximo_request :=
  match rq with
  | Throw e => (mcp_failed e, [])
  | Val q =>
      match maximo with
      | Rejected e => (mcp_failed e, [q])
      | Responded r => (pass_on r, [q])
      end
  end.

(** [body.tenant || (args && args.tenant) || "default"] *)
Definition tenant_value (body : json) : jsval :=
  let args := call_args body in
  js_or (js_or (get body "tenant") (js_and (Some args) (get args "tenant")))
        (Some (JStr "default")).

(** How a request to [POST /mcp/call] ends: with an answer of the
    handler, after the requests [sent] to Maximo, or with an exception
    that no [try] of the handler encloses. *)
Inductive outcome :=
| Unhandled (e : exn)
| Handled (a : answer) (sent : list maximo_request).

Section Call.

(** [encodeURIComponent(v)] and [new URLSearchParams(v).toString()],
    which raise on some arguments (a lone surrogate; an array with an
    entry that is not a pair). *)
Variable encodeURIComponent : json -> result string.
Variable URLSearchParams : json -> result string.

(** [`${t.api}/os/${encodeURIComponent(os)}?` + new
    URLSearchParams(params).toString()] *)
Definition os_url (api : string) (os params : json) : result string :=
  match encodeURIComponent os with
  | Throw e => Throw e
  | Val o =>
      match URLSearchParams params with
      | Throw e => Throw e
      | Val q => Val (api ++ "/os/" ++ o ++ "?" ++ q)%string
      end
  end.

(** The arguments of [fetch], in the order the code evaluates them. *)
Definition request_of (method : string) (url : result string)
    (headers : result (list (string * jsval))) (extra : list (string * jsval))
    (body : option json) : result maximo_request :=
  match url with
  | Throw e => Throw e
  | Val u =>
      match headers with
      | Throw e => Throw e
      | Val h => Val {| mx_method := method; mx_url := u;
                        mx_headers := h ++ extra; mx_body := body |}
      end
  end.

(** The second [try] block of [POST /mcp/call] for the arm [a], the
    tenant context [t], the arguments [args] and the identifier [tool];
    [maximo] is what the one [fetch] of the arm meets.  The result is the
    answer and the requests sent to Maximo. *)
Definition serve (a : action) (t args : json) (tool : jsval) (maximo : fetched)
  : answer * list maximo_request :=
  let api := js_String (get t "api") in
  match a with
  | ListOS =>
      attempt (request_of "GET" (Val (api ++ "/os")%string) (authHeaders t) [] None)
        maximo reserialize
  | QueryOS =>
      let os := opt_get (Some args) "os" in
      let params := or_else (opt_get (Some args) "params") (JObj []) in
      match os with
      | Some o =>
          if negb (truthy os) then (os_required, [])
          else
            attempt (request_of "GET" (os_url api o params) (authHeaders t) [] None)
              maximo forward
      | None => (os_required, [])
      end
  | Create =>
      let os := opt_get (Some args) "os" in
      let params := or_else (opt_get (Some args) "params") (JObj [("lean", JNum 1)]) in
      let payload := or_else (opt_get (Some args) "payload") (JObj []) in
      match os with
      | Some o =>
          if negb (truthy os) then (os_required, [])
          else
            attempt (request_of "POST" (os_url api o params) (authHeaders t)
                       [("content-type", Some (JStr "application/json"))]
                       (Some payload))
              maximo forward
      | None => (os_required, [])
      end
  | UnknownTool =>
      (SendJson 400
         (JObj (("error", JStr "unknown_tool")
                :: match tool with Some v => [("tool", v)] | None => [] end)),
       [])
  end.

(** [POST /mcp/call] *)
Definition mcp_call_handler (tenants body : json) (maximo : fetched) : outcome :=
  match toString (tenant_value body) with
  | Throw e => Unhandled e
  | Val tenantId =>
      match tenantOrThrow tenants tenantId with
      | Throw e => Handled (SendJson 400 (JObj [("error", JStr (exn_String e))])) []
      | Val t =>
          let (a, sent) := serve (dispatch (call_tool body)) t (call_args body)
                             (call_tool body) maximo in
          Handled a sent
      end
  end.

End Call.



(** The names under which [GET /mcp/tools] offers its tools. *)
Definition advertised_names : list jsval :=
  map (fun d => opt_get (get d "function") "name")
    (match get mcp_tools "tools" with Some (JArr ds) => ds | _ => [] end).

(** The [properties] and [additionalProperties] a descriptor of
    [GET /mcp/tools] gives its arguments. *)
Definition advertised_arguments (name : string) : option (list string * jsval) :=
  match
    find (fun d => is_string (opt_get (get d "function") "name") name)
      (match get mcp_tools "tools" with Some (JArr ds) => ds | _ => [] end)
  with
  | Some d =>
      let schema := opt_get (get d "function") "parameters" in
      match opt_get schema "properties" with
      | Some (JObj props) => Some (map fst props, opt_get schema "additionalProperties")
      | _ => None
      end
  | None => None
  end.

End RegistryCall.
Import RegistryCall.

(** ** The registry server as a whole: its routes and its trace buffer *)

Module Server.

(** A request to the registry server, by the route that serves it:
    [GET /api/logs] with [Number] of its [limit], as [logs] takes it,
    [GET /healthz], [GET /mcp/tools], [POST /mcp/call] with its body and
    what its [fetch] meets, and the fallback [GET /*]. *)
Inductive request :=
| GetLogs (query_limit : option number)
| GetHealthz
| GetTools
| PostCall (body : json) (maximo : fetched)
| GetOther.

Section Buffer.

Variable entry : Type.





End Buffer.

End Server.
Import Server.

(** ** Sample inputs of the registry server *)

Module RegistrySample.

(** Stand-ins for the two URL built-ins on arguments they leave as they
    are: [encodeURIComponent] on a value whose text has unreserved
    characters only, [URLSearchParams] on the object [{ lean: 1 }] and on
    the empty object. *)
Definition encode (v : json) : result string := Val (String_of v).
Definition search (v : json) : result string :=
  match v with
  | JObj [("lean", JNum 1)] => Val "lean=1"
  | JObj [] => Val EmptyString
  | _ => Throw (TypeError "Each query pair must be an iterable [name, value] tuple")
  end.

(** A registry with two tenants. *)
Definition acme : list (string * json) :=
  [("baseUrl", JStr "https://acme.example.com/maximo/"); ("apiKey", JStr "acme-key")].
Definition two_tenants : json :=
  loadTenants
    (Some (JObj [("default", JObj [("baseUrl", JStr "https://maximo.example.com");
                                   ("apiKey", JStr "key")]);
                 ("acme", JObj acme)]))
    None None None None.

(** The agent asks for a work order to be created, with the arguments
    the tool list names. *)
Definition work_order : json :=
  JObj [("description", JStr "Replace pump seal"); ("siteid", JStr "BEDFORD")].
Definition create_for_acme : json :=
  call_body (Some (JStr "maximo.create"))
    (JObj [("os", JStr "MXWO"); ("body", work_order)]) "acme".
Definition acme_context : json :=
  JObj (set_field "api" (JStr "https://acme.example.com/maximo/api") acme).

Definition created_response : response :=
  {| status := 201; content_type := Some "application/json";
     text := "{}"; parsed := Some (JObj []) |}.
Definition created : fetched := Responded created_response.

Definition post_to_acme : maximo_request :=
  {| mx_method := "POST";
     mx_url := "https://acme.example.com/maximo/api/os/MXWO?lean=1";
     mx_headers := [("accept", Some (JStr "application/json"));
                    ("apikey", Some (JStr "acme-key"));
                    ("x-api-key", Some (JStr "acme-key"));
                    ("Authorization", Some (JStr "Apikey acme-key"));
                    ("content-type", Some (JStr "application/json"))];
     mx_body := Some (JObj []) |}.

End RegistrySample.

(** ** Vocabulary of the statements about whole runs *)

(** Whatever the state it starts in and however it ends, [m] only adds
    requests to the trace, and each of them satisfies [P]. *)
Definition sends {A : Type} (P : event -> Prop) (m : M A) : Prop :=
  forall s, exists evs, trace (snd (m s)) = trace s ++ evs /\ Forall P evs.

(** A request of the tool-call loop for the tenant [tenant] and the
    adapted tool list [tools]: a completion request as
    [openaiCompatChat] builds it for [tools], or an invocation that names
    [tenant]; not a tool-list request. *)
Definition loop_request (tenant : string) (tools : json) (ev : event) : Prop :=
  match ev with
  | TxTools _ => False
  | TxChat rq => rq = chat_request_of (req_messages rq) tools
  | TxCall body => get body "tenant" = Some (JStr tenant)
  end.

Definition is_invocation (ev : event) : Prop := is_call ev = true.

(** The conversations sent to the provider, in the order of the
    completion requests. *)
Definition conversations (t : list event) : list (list message) :=
  flat_map (fun ev => match ev with TxChat rq => [req_messages rq] | _ => [] end) t.

(** [next] is [prev] followed by one assistant message and then tool
    messages only. *)
Definition extends (prev next : list message) : Prop :=
  exists a ms,
    next = prev ++ a :: ms
    /\ role a = "assistant"
    /\ Forall (fun m => role m = "tool") ms.

(** Each conversation extends the one before it, [prev] coming before
    the first. *)
Fixpoint grows (prev : list message) (convs : list (list message)) : Prop :=
  match convs with
  | [] => True
  | conv :: rest => extends prev conv /\ grows conv rest
  end.

(** The completion request of a chat without tools. *)
Definition plain_request (c : config) : chat_request :=
  {| req_messages := initial_messages c; req_tools := None; req_tool_choice := None |}.


(** The request settings pass the two checks of the branch. *)
Definition configured (c : config) : Prop :=
  cfg_apiKey c <> EmptyString /\ cfg_base c <> EmptyString.

(** For a run that ended in [out] from the state [s]: when the run made
    completion request number [k] and the provider answered it with an
    error status, that request was its last request, and the run raised
    what [openaiCompatChat] raises for that answer. *)
Definition ends_at_error {X : Type} (E : env) (s : state) (out : result X * state)
  : Prop :=
  forall k r,
    chats (trace s) <= k < chats (trace (snd out)) ->
    provider E k = Responded r -> ok r = false ->
    S k = chats (trace (snd out))
    /\ (exists rq evs, trace (snd out) = evs ++ [TxChat rq])
    /\ exists e, completion_of r = Throw e /\ fst out = Throw e.

(** ** Sample runs of the agent's handler *)

Module RunSample.

(** The sample request with tools switched off. *)
Definition plain : config :=
  {| cfg_provider := "openai"; cfg_system := "You are a Maximo assistant.";
     cfg_text := "hello"; cfg_enableTools := false;
     cfg_mcpUrl := "http://mcp-server:8081"; cfg_tenant := "default";
     cfg_apiKey := "sk-test"; cfg_base := "https://api.openai.com" |}.

Definition rate_limited : response :=
  {| status := 429; content_type := Some "application/json";
     text := "{}";
     parsed := Some (JObj [("error", JObj [("message", JStr "Rate limit reached")])]) |}.

(** The provider asks for one tool call and refuses the next completion
    request. *)
Definition limited_after_call : env :=
  {| provider := fun k => match k with
                          | O => Sample.json_response 200 Sample.calling
                          | _ => Responded rate_limited
                          end;
     registry_tools := Sample.json_response 200 Sample.tool_list;
     registry_call := fun _ => Sample.json_response 200 (JObj [("member", JArr [])]) |}.



End RunSample.

(** ** The agent's Maximo helpers *)

Module MaximoHelpers.

(** [s.replace(/<suffix>$/, by)] for a literal suffix: the match can
    only be the end of [s]. *)
Definition replace_suffix (s suffix by_ : string) : string :=
  if endsWith s suffix
  then (substring 0 (String.length s - String.length suffix) s ++ by_)%string
  else s.

(** [normMaximoBase(url)] *)
Definition normMaximoBase (url : jsval) : result string :=
  match ToString (js_or url (Some (JStr EmptyString))) with
  | Throw e => Throw e
  | Val s =>
      let u := trim s in
      if String.eqb u EmptyString then Val EmptyString
      else
        let u := replace_suffix u "/" EmptyString in
        if negb (endsWith u "/maximo") then Val (u ++ "/maximo")%string else Val u
  end.

(** [maximoApiBase(base)] *)
Definition maximoApiBase (base : jsval) : result string :=
  match normMaximoBase base with
  | Throw e => Throw e
  | Val b =>
      if String.eqb b EmptyString then Val EmptyString
      else Val (replace_suffix b "/maximo" "/maximo/api")
  end.

End MaximoHelpers.
Import MaximoHelpers.

(* ================================================================== *)
(** * Theorems *)
(* ================================================================== *)

(** ** The tool schema adapter *)

Section AdapterFacts.

Lemma toOpenAITools_loop_out (ts : list json) :
  forall out, toOpenAITools_loop ts out = out ++ toOpenAITools_loop ts [].
Proof.
  induction ts as [|t ts IH]; intro out; cbn [toOpenAITools_loop].
  - now rewrite app_nil_r.
  - destruct (openai_ready t).
    + rewrite IH, (IH ([] ++ _)), app_assoc. reflexivity.
    + destruct (String.eqb _ EmptyString).
      * apply IH.
      * rewrite IH, (IH ([] ++ _)), app_assoc. reflexivity.
Qed.

Lemma toOpenAITools_loop_cons (t : json) (ts : list json) :
  toOpenAITools_loop (t :: ts) [] = adapt t ++ toOpenAITools_loop ts [].
Proof.
  unfold adapt. cbn [toOpenAITools_loop].
  destruct (openai_ready t).
  - now rewrite toOpenAITools_loop_out.
  - destruct (String.eqb _ EmptyString).
    + reflexivity.
    + now rewrite toOpenAITools_loop_out.
Qed.

(** The loop is a concatenation of the per-descriptor results, in the
    order of the input. *)
Lemma toOpenAITools_loop_flat_map (ts : list json) :
  toOpenAITools_loop ts [] = flat_map adapt ts.
Proof.
  induction ts as [|t ts IH]; [reflexivity|].
  rewrite toOpenAITools_loop_cons, IH. reflexivity.
Qed.

(** X4: relative order is kept: adapting a concatenation
    concatenates the adapted parts. *)
Lemma toOpenAITools_app (xs ys : list json) :
  toOpenAITools (JArr (xs ++ ys))
  = JArr (items_of (toOpenAITools (JArr xs)) ++ items_of (toOpenAITools (JArr ys))).
Proof.
  unfold toOpenAITools; cbn [items_of].
  now rewrite !toOpenAITools_loop_flat_map, flat_map_app.
Qed.

Lemma parameters_of_object (p : jsval) :
  (truthy (Some (parameters_of p)) && typeof_object (Some (parameters_of p)))%bool = true.
Proof.
  unfold parameters_of. destruct p as [v|]; [|reflexivity].
  destruct (truthy (Some v) && typeof_object (Some v))%bool eqn:H; [assumption|reflexivity].
Qed.

Lemma parameters_of_again (p : jsval) :
  parameters_of (Some (parameters_of p)) = parameters_of p.
Proof.
  unfold parameters_of at 1. now rewrite parameters_of_object.
Qed.

(** A schema that is absent, or fails the code's object test, is
    replaced by the default schema. *)
Lemma parameters_of_default (p : jsval) :
  (truthy p && typeof_object p)%bool = false -> parameters_of p = default_parameters.
Proof.
  unfold parameters_of. destruct p as [v|]; [|reflexivity].
  intros ->. reflexivity.
Qed.

Lemma String_of_or_empty (d : string) :
  js_String (js_or (Some (JStr d)) (Some (JStr EmptyString))) = d.
Proof.
  unfold js_or; cbn [truthy]. destruct (String.eqb d EmptyString) eqn:H; cbn.
  - apply String.eqb_eq in H. now subst.
  - reflexivity.
Qed.

(** Everything the adapter emits has the canonical shape. *)
Lemma adapt_shape (t d : json) :
  In d (adapt t) ->
  exists n desc p, d = descriptor n desc (parameters_of p).
Proof.
  unfold adapt; cbn [toOpenAITools_loop].
  destruct (openai_ready t).
  - cbn [app In]. intros [<-|[]]. eauto.
  - destruct (String.eqb _ EmptyString).
    + intros [].
    + cbn [app In]. intros [<-|[]]. eauto.
Qed.

(** A canonical descriptor with a non-empty name is passed through
    unchanged. *)
Lemma adapt_descriptor (n desc : string) (p : jsval) :
  n <> EmptyString ->
  adapt (descriptor n desc (parameters_of p)) = [descriptor n desc (parameters_of p)].
Proof.
  intro Hn. apply String.eqb_neq in Hn.
  unfold adapt; cbn [toOpenAITools_loop].
  assert (Hr : openai_ready (descriptor n desc (parameters_of p)) = true).
  { unfold openai_ready, descriptor; cbn. now rewrite Hn. }
  rewrite Hr. cbn [app].
  change (get (descriptor n desc (parameters_of p)) "function")
    with (Some (JObj [("name", JStr n); ("description", JStr desc);
                      ("parameters", parameters_of p)])).
  change (opt_get (Some (JObj [("name", JStr n); ("description", JStr desc);
                               ("parameters", parameters_of p)])) "name")
    with (Some (JStr n)).
  change (opt_get (Some (JObj [("name", JStr n); ("description", JStr desc);
                               ("parameters", parameters_of p)])) "description")
    with (Some (JStr desc)).
  change (opt_get (Some (JObj [("name", JStr n); ("description", JStr desc);
                               ("parameters", parameters_of p)])) "parameters")
    with (Some (parameters_of p)).
  rewrite String_of_or_empty, parameters_of_again. reflexivity.
Qed.

(** A canonical descriptor with an empty name is dropped. *)
Lemma adapt_descriptor_unnamed (desc : string) (p : json) :
  adapt (descriptor EmptyString desc p) = [].
Proof. reflexivity. Qed.

Lemma named_descriptor (n desc : string) (p : json) :
  named (descriptor n desc p) -> n <> EmptyString.
Proof.
  unfold named, name_of, descriptor; cbn. intros H ->. discriminate.
Qed.

(** X3: the adapter is idempotent on every input for which it emits
    no empty name. *)
Lemma toOpenAITools_idempotent_named (tools : json) :
  Forall named (items_of (toOpenAITools tools)) ->
  toOpenAITools (toOpenAITools tools) = toOpenAITools tools.
Proof.
  unfold toOpenAITools; cbn [items_of].
  set (ts := match tools with JArr items => items | _ => [] end).
  rewrite !toOpenAITools_loop_flat_map.
  assert (Hs : forall d, In d (flat_map adapt ts) ->
                 exists n desc p, d = descriptor n desc (parameters_of p)).
  { intros d Hd. apply in_flat_map in Hd as (t & _ & Hd). eapply adapt_shape; eauto. }
  intro Hn. f_equal.
  revert Hs Hn. generalize (flat_map adapt ts) as out. clear ts tools.
  induction out as [|d out IH]; intros Hs Hn; [reflexivity|].
  inversion Hn as [|? ? Hd Hout]; subst.
  destruct (Hs d (or_introl eq_refl)) as (n & desc & p & ->).
  cbn [flat_map]. rewrite adapt_descriptor by (eapply named_descriptor; eauto).
  cbn [app]. f_equal.
  apply IH; [intros; apply Hs; now right | assumption].
Qed.

End AdapterFacts.

Lemma descriptor_named (n desc : string) (p : json) :
  String.eqb n EmptyString = false -> named (descriptor n desc p).
Proof. unfold named, name_of, descriptor; cbn. now intros ->. Qed.

(** Names come out non-empty whenever the canonical entries of the input
    carry their name as a string. *)
Lemma adapt_named (t d : json) :
  (openai_ready t = true -> exists s, name_of t = Some (JStr s)) ->
  In d (adapt t) -> named d.
Proof.
  unfold adapt; cbn [toOpenAITools_loop]. intro Hstr.
  destruct (openai_ready t) eqn:Hr.
  - destruct (Hstr eq_refl) as [s Hs]. unfold name_of in Hs.
    cbn [app In]. intros [<-|[]].
    unfold openai_ready in Hr. rewrite Hs in Hr.
    apply andb_true_iff in Hr as [_ Hr].
    rewrite Hs. apply descriptor_named.
    cbn in Hr |- *. now destruct (String.eqb s EmptyString).
  - destruct (String.eqb _ EmptyString) eqn:Hn.
    + intros [].
    + cbn [app In]. intros [<-|[]]. now apply descriptor_named.
Qed.

(** X5: the registry's own adapter filters on the coerced name, so it
    never emits an empty one. *)
Lemma mcpToOpenAITools_named (mcpTools : json) :
  Forall named (items_of (mcpToOpenAITools mcpTools)).
Proof.
  unfold mcpToOpenAITools; cbn [items_of].
  apply Forall_forall. intros d Hd. apply filter_In in Hd as [_ Hd]. exact Hd.
Qed.

(** C5, at the failing input: a canonical descriptor whose name is the
    empty array passes the truthiness guard of [toOpenAITools] and is
    emitted under the empty name; a second application drops it, so the
    adapter applied twice does not give what it gives applied once. *)
Theorem toOpenAITools_twice_drops_array_name :
  toOpenAITools (JArr [array_named])
    = JArr [descriptor EmptyString EmptyString default_parameters]
  /\ toOpenAITools (toOpenAITools (JArr [array_named])) = JArr []
  /\ toOpenAITools (toOpenAITools (JArr [array_named]))
     <> toOpenAITools (JArr [array_named]).
Proof.
  repeat split; try reflexivity.
  cbv. discriminate.
Qed.

(** C6, at the failing input: the output of [toOpenAITools] contains a
    descriptor with an empty name, although the registry's
    [mcpToOpenAITools] and the native branch test the name after coercing
    it. *)
Theorem toOpenAITools_emits_empty_name :
  In (descriptor EmptyString EmptyString default_parameters)
     (items_of (toOpenAITools (JArr [array_named])))
  /\ name_of (descriptor EmptyString EmptyString default_parameters)
     = Some (JStr EmptyString)
  /\ ~ Forall named (items_of (toOpenAITools (JArr [array_named]))).
Proof.
  split; [now left|]. split; [reflexivity|].
  intro H. inversion H as [|? ? Hd _]; subst. discriminate Hd.
Qed.

(** ** The trace buffer *)

Section LogFacts.

Variable entry : Type.

Lemma shift_while_skipn (LOG_MAX : nat) (log : list entry) :
  shift_while entry LOG_MAX log = skipn (List.length log - LOG_MAX) log.
Proof.
  induction log as [|e log IH]; [reflexivity|].
  cbn [shift_while]. destruct (Nat.ltb LOG_MAX (List.length (e :: log))) eqn:H.
  - apply Nat.ltb_lt in H. cbn [List.length] in *.
    rewrite IH. replace (S (List.length log) - LOG_MAX) with (S (List.length log - LOG_MAX)) by lia.
    reflexivity.
  - apply Nat.ltb_ge in H. replace (List.length (e :: log) - LOG_MAX) with 0 by lia.
    reflexivity.
Qed.

(** X1: after [pushLog] the buffer holds the last [LOG_MAX] entries of
    what it held plus the new one, in their order: never more than
    [LOG_MAX], and exactly [LOG_MAX] once that many were pushed. *)
Lemma pushLog_bounded (LOG_MAX : nat) (log : list entry) (e : entry) :
  pushLog entry LOG_MAX log e
    = skipn (S (List.length log) - LOG_MAX) (log ++ [e])
  /\ List.length (pushLog entry LOG_MAX log e)
     = Nat.min (S (List.length log)) LOG_MAX.
Proof.
  unfold pushLog. rewrite shift_while_skipn, length_app. cbn [List.length].
  rewrite Nat.add_1_r. split; [reflexivity|].
  rewrite length_skipn, length_app. cbn [List.length]. lia.
Qed.

(** X2: for a limit of at least 1 the endpoint returns the last
    [min(limit, LOG_MAX)] entries of a buffer that respects its
    capacity, most recent last. *)
Lemma logs_positive_limit (LOG_MAX : nat) (log : list entry) (z : Z) :
  (0 < z)%Z -> List.length log <= LOG_MAX ->
  logs entry LOG_MAX log (Some (Int z))
    = skipn (List.length log - Z.to_nat z) log
  /\ List.length (logs entry LOG_MAX log (Some (Int z)))
     = Nat.min (List.length log) (Nat.min (Z.to_nat z) LOG_MAX).
Proof.
  intros Hz Hcap. unfold logs, slice; cbn [Math_min neg].
  assert (E : Z.to_nat
                (if Z.ltb (- Z.min z (Z.of_nat LOG_MAX)) 0
                 then Z.max (Z.of_nat (List.length log) + - Z.min z (Z.of_nat LOG_MAX)) 0
                 else Z.min (- Z.min z (Z.of_nat LOG_MAX)) (Z.of_nat (List.length log)))
              = List.length log - Z.to_nat z).
  { destruct (Z.ltb_spec (- Z.min z (Z.of_nat LOG_MAX)) 0); lia. }
  rewrite E. split; [reflexivity|]. rewrite length_skipn. lia.
Qed.


End LogFacts.

(** ** Tenant resolution *)

Section TenantFacts.

Lemma tenantOrThrow_unconfigured (tenants : json) (tenantId : string) :
  tenants <> JNull ->
  truthy (opt_get (resolve tenants tenantId) "baseUrl") = false ->
  tenantOrThrow tenants tenantId
  = Throw (Error ("Tenant is not configured: " ++ tenantId)).
Proof.
  intros Hnull Hb. unfold tenantOrThrow. rewrite Hb, orb_true_r.
  destruct tenants; try reflexivity. now elim Hnull.
Qed.

(** What [tenantOrThrow] returns when it returns: the resolved tenant
    with [api], the API root of its base URL. *)
Lemma tenantOrThrow_val (tenants : json) (tenantId : string) (t : json) :
  tenantOrThrow tenants tenantId = Val t ->
  exists fields c rest,
    resolve tenants tenantId = Some (JObj fields)
    /\ truthy (lookup "baseUrl" fields) = true
    /\ mkBaseApi (lookup "baseUrl" fields) = Some (String c rest)
    /\ t = JObj (set_field "api" (JStr (String c rest)) fields).
Proof.
  unfold tenantOrThrow. intro H.
  assert (H' : (if (negb (truthy (resolve tenants tenantId))
                    || negb (truthy (opt_get (resolve tenants tenantId) "baseUrl")))%bool
                then Throw (Error ("Tenant is not configured: " ++ tenantId))
                else
                  match ToString (opt_get (resolve tenants tenantId) "baseUrl") with
                  | Throw e => Throw e
                  | Val _ =>
                      match mkBaseApi (opt_get (resolve tenants tenantId) "baseUrl") with
                      | Some (String c rest) =>
                          match resolve tenants tenantId with
                          | Some (JObj fields) =>
                              Val (JObj (set_field "api" (JStr (String c rest)) fields))
                          | _ => Val (JObj [("api", JStr (String c rest))])
                          end
                      | _ => Throw (Error ("Bad Maximo URL for tenant: " ++ tenantId))
                      end
                  end) = Val t)
    by (destruct tenants; try exact H; discriminate H).
  clear H. set (r := resolve tenants tenantId) in *.
  destruct (truthy r); [|discriminate H'].
  destruct (truthy (opt_get r "baseUrl")) eqn:Hb; [|discriminate H'].
  cbn [negb orb] in H'.
  destruct (ToString (opt_get r "baseUrl")); [|discriminate H'].
  destruct (mkBaseApi (opt_get r "baseUrl")) as [[|c rest]|] eqn:Hapi;
    try discriminate H'.
  destruct r as [[| | | | |fields]|]; try discriminate Hb.
  exists fields, c, rest. inversion H'. now repeat split.
Qed.

(** An own entry that is an object is the tenant its id resolves to. *)
Lemma resolve_own (tenants : json) (tenantId : string) (fields : list (string * json)) :
  get tenants tenantId = Some (JObj fields) ->
  resolve tenants tenantId = Some (JObj fields).
Proof.
  destruct tenants; try discriminate. cbn [get resolve]. now intros ->.
Qed.

(** C10, which the code breaks where the tenant id is the name of a
    member every object inherits.  For a registry object, an id that is
    neither an entry nor such a name is resolved to the [default] entry;
    an id that is no entry but such a name finds the inherited member,
    and the call is rejected whatever base URL [default] has.  At the
    sample registry, whose only tenant [default] has a base URL, the id
    [acme] gets the context of [default], and a call for the tenant
    [constructor] is answered 400 without a request to Maximo. *)
Theorem inherited_tenant_id_is_not_defaulted
    (encodeURIComponent URLSearchParams : json -> result string) (maximo : fetched) :
  (forall fields tenantId,
      lookup tenantId fields = None -> inherited tenantId = false ->
      resolve (JObj fields) tenantId = lookup "default" fields)
  /\ (forall fields tenantId,
        lookup tenantId fields = None -> inherited tenantId = true ->
        tenantOrThrow (JObj fields) tenantId
        = Throw (Error ("Tenant is not configured: " ++ tenantId)))
  /\ get Sample.tenants "constructor" = None
  /\ tenantOrThrow Sample.tenants "acme"
     = Val (JObj [("baseUrl", JStr "https://maximo.example.com");
                  ("apiKey", JStr "key");
                  ("api", JStr "https://maximo.example.com/maximo/api")])
  /\ mcp_call_handler encodeURIComponent URLSearchParams
       Sample.tenants Sample.call_for_constructor maximo
     = Handled
         (SendJson 400
            (JObj [("error", JStr "Error: Tenant is not configured: constructor")]))
         [].
Proof.
  split; [|split; [|repeat split]].
  - intros fields tenantId Hmiss Hinh. cbn [resolve]. now rewrite Hmiss, Hinh.
  - intros fields tenantId Hmiss Hinh. apply tenantOrThrow_unconfigured; [discriminate|].
    cbn [resolve]. now rewrite Hmiss, Hinh.
Qed.

End TenantFacts.

(** ** The state-and-exception monad *)

Section MonadFacts.

Context {A B : Type}.

Lemma bind_val (m : M A) (k : A -> M B) (s s1 : state) (a : A) :
  m s = (Val a, s1) -> bind m k s = k a s1.
Proof. unfold bind. now intros ->. Qed.

Lemma bind_throw (m : M A) (k : A -> M B) (s s1 : state) (e : exn) :
  m s = (Throw e, s1) -> bind m k s = (Throw e, s1).
Proof. unfold bind. now intros ->. Qed.

Lemma bind_inv (m : M A) (k : A -> M B) (s s' : state) (b : B) :
  bind m k s = (Val b, s') ->
  exists a s1, m s = (Val a, s1) /\ k a s1 = (Val b, s').
Proof.
  unfold bind. destruct (m s) as [[a|e] s1]; [eauto|discriminate].
Qed.

End MonadFacts.

Lemma chats_app (t u : list event) : chats (t ++ u) = chats t + chats u.
Proof. unfold chats. now rewrite filter_app, length_app. Qed.

Lemma calls_app (t u : list event) : calls (t ++ u) = calls t + calls u.
Proof. unfold calls. now rewrite filter_app, length_app. Qed.

Lemma fetch_eq (ev : event) (answer : list event -> fetched) (s : state) :
  fetch ev answer s
  = match answer (trace s) with
    | Rejected e => (Throw e, sent s [ev])
    | Responded r => (Val r, sent s [ev])
    end.
Proof. unfold fetch, bind, emit, await. now destruct (answer (trace s)). Qed.

(** ** One pass of the loop, forwards *)

Section PassFacts.

Variable JSON_parse : string -> option json.
Variable JSON_stringify : json -> string.
Variable E : env.
Variable tenant : string.
Variable tools : json.

Lemma openaiCompatChat_completes (s : state) (out : json) :
  completes E (chats (trace s)) out ->
  openaiCompatChat E tools s
  = (Val out, sent s [TxChat (chat_request_of (messages s) tools)]).
Proof.
  intros (r & Hr & Hout). unfold openaiCompatChat, bind.
  rewrite fetch_eq, Hr. unfold lift. now rewrite Hout.
Qed.

(** An invocation answered with a JSON body, of whatever status, becomes
    a tool message that carries that body. *)
Lemma run_tool_call_answered (tc : json) (s : state) :
  tc <> JNull ->
  answered E (calls (trace s)) ->
  run_tool_call JSON_parse JSON_stringify E tenant tc s
  = (Val tt,
     {| messages := messages s;
        loopMessages := loopMessages s
                          ++ [tool_message JSON_stringify tc (answer_of E (calls (trace s)))];
        trace := trace s ++ [TxCall (call_request JSON_parse tenant tc)] |}).
Proof.
  intros Htc (r & v & Hr & Hv). unfold run_tool_call, bind, answer_of.
  rewrite fetch_eq, Hr, Hv. unfold ret, push_loop, sent, tool_message; cbn.
  destruct tc; try reflexivity. now elim Htc.
Qed.

(** An invocation that meets a network failure raises: no tool message
    is appended. *)
Lemma run_tool_call_rejected (tc : json) (s : state) (e : exn) :
  registry_call E (calls (trace s)) = Rejected e ->
  run_tool_call JSON_parse JSON_stringify E tenant tc s
  = (Throw e, sent s [TxCall (call_request JSON_parse tenant tc)]).
Proof.
  intro Hr. unfold run_tool_call, bind. now rewrite fetch_eq, Hr.
Qed.

Lemma for_each_answered (tcs : list json) :
  forall s,
    Forall (fun tc => tc <> JNull) tcs ->
    (forall k, k < List.length tcs -> answered E (calls (trace s) + k)) ->
    for_each tcs (run_tool_call JSON_parse JSON_stringify E tenant) s
    = (Val tt,
       {| messages := messages s;
          loopMessages := loopMessages s
                            ++ tool_messages JSON_stringify E (calls (trace s)) tcs;
          trace := trace s
                     ++ map (fun tc => TxCall (call_request JSON_parse tenant tc)) tcs |}).
Proof.
  induction tcs as [|tc tcs IH]; intros s Hnn Hans.
  - cbn. rewrite !app_nil_r. now destruct s.
  - inversion Hnn as [|? ? Htc Hrest]; subst.
    cbn [for_each].
    rewrite (bind_val _ _ s _ tt (run_tool_call_answered tc s Htc
               ltac:(rewrite <- (Nat.add_0_r (calls (trace s))); apply Hans; cbn; lia))).
    rewrite IH; [|assumption|].
    + cbn [messages loopMessages trace tool_messages map].
      rewrite calls_app. cbn [calls filter is_call List.length].
      rewrite Nat.add_1_r, <- !app_assoc. reflexivity.
    + intros k Hk. cbn [trace]. rewrite calls_app. cbn [calls filter is_call List.length].
      replace (calls (trace s) + 1 + k) with (calls (trace s) + S k) by lia.
      apply Hans. cbn. lia.
Qed.

(** The invocations up to the first network failure are made; that
    failure is raised, and no completion is requested meanwhile. *)
Lemma for_each_rejected (tcs : list json) :
  forall s e,
    Forall (fun tc => tc <> JNull) tcs ->
    (forall k, k < List.length tcs -> answered_or_rejected E (calls (trace s) + k)) ->
    first_rejection E (calls (trace s)) tcs = Some e ->
    exists s1,
      for_each tcs (run_tool_call JSON_parse JSON_stringify E tenant) s = (Throw e, s1)
      /\ chats (trace s1) = chats (trace s).
Proof.
  induction tcs as [|tc tcs IH]; intros s e Hnn Hans Hrej; [discriminate|].
  inversion Hnn as [|? ? Htc Hrest]; subst.
  cbn [first_rejection] in Hrej. cbn [for_each].
  destruct (registry_call E (calls (trace s))) as [e0|r] eqn:Hcall.
  - inversion Hrej; subst.
    rewrite (bind_throw _ _ _ _ _ (run_tool_call_rejected tc s e Hcall)).
    eexists. split; [reflexivity|]. cbn [sent trace]. rewrite chats_app. cbn. lia.
  - assert (Hfirst : answered E (calls (trace s))).
    { destruct (Hans 0 ltac:(cbn; lia)) as [H|[e0 H]];
        rewrite Nat.add_0_r in H; [exact H|].
      rewrite Hcall in H. discriminate. }
    rewrite (bind_val _ _ s _ tt (run_tool_call_answered tc s Htc Hfirst)).
    match goal with
    | |- context [for_each _ _ ?s0] => destruct (IH s0 e Hrest) as (s1 & Hfor & Hchats)
    end.
    + intros k Hk. cbn [trace]. rewrite calls_app. cbn [calls filter is_call List.length].
      replace (calls (trace s) + 1 + k) with (calls (trace s) + S k) by lia.
      apply Hans. cbn. lia.
    + cbn [trace]. rewrite calls_app. cbn [calls filter is_call List.length].
      now rewrite Nat.add_1_r.
    + exists s1. split; [exact Hfor|]. rewrite Hchats. cbn [trace].
      rewrite chats_app. cbn. lia.
Qed.

Lemma no_rejection_answered (tcs : list json) :
  forall base,
    (forall k, k < List.length tcs -> answered_or_rejected E (base + k)) ->
    first_rejection E base tcs = None ->
    forall k, k < List.length tcs -> answered E (base + k).
Proof.
  induction tcs as [|tc tcs IH]; intros base Hans Hrej k Hk; [inversion Hk|].
  cbn [first_rejection] in Hrej.
  destruct (registry_call E base) as [e|r] eqn:Hcall; [discriminate|].
  destruct k as [|k].
  - destruct (Hans 0 Hk) as [H|[e H]]; [exact H|].
    rewrite Nat.add_0_r, Hcall in H. discriminate.
  - replace (base + S k) with (S base + k) by lia.
    apply IH; [|exact Hrej|cbn in Hk; lia].
    intros j Hj. replace (S base + j) with (base + S j) by lia.
    apply Hans. cbn. lia.
Qed.

(** A pass whose completion asks for tools, all of them answered with a
    JSON body, runs to its end. *)
Lemma iteration_continues (s : state) (out : json) (tcs : list json) :
  completes E (chats (trace s)) out ->
  requests_tools out tcs ->
  (forall k, k < List.length tcs -> answered E (calls (trace s) + k)) ->
  iteration JSON_parse JSON_stringify E tenant tools s
  = (Val Continue, after_pass JSON_parse JSON_stringify E tenant tools s out tcs).
Proof.
  intros Hout (Htcs & Hne & Hnn) Hans. unfold iteration.
  rewrite (bind_val _ _ _ _ _ (openaiCompatChat_completes s out Hout)).
  unfold handle_completion. rewrite Htcs. destruct tcs as [|tc tcs]; [now elim Hne|].
  cbn [js_length truthy negb List.length].
  replace (negb (Z.of_nat (S (List.length tcs)) =? 0)%Z) with true
    by (symmetry; apply negb_true_iff, Z.eqb_neq; lia).
  cbn [negb]. unfold bind at 1. unfold push_loop at 1.
  unfold for_of; cbn [iterate]. unfold bind at 1.
  rewrite for_each_answered; [|assumption|].
  - unfold bind, update_messages, ret, after_pass, sent, assistant_message;
      cbn -[calls].
    rewrite calls_app, Nat.add_0_r, Htcs, <- !app_assoc. reflexivity.
  - intros k Hk. cbn -[calls]. rewrite calls_app, Nat.add_0_r. now apply Hans.
Qed.

End PassFacts.

(** ** What any computation of the handler sends *)

Lemma within_nil : within 0 [].
Proof. split; [apply Nat.le_refl | constructor]. Qed.

Lemma within_app (a b : nat) (e1 e2 : list event) :
  within a e1 -> within b e2 -> within (a + b) (e1 ++ e2).
Proof.
  intros [H1 F1] [H2 F2]. split.
  - rewrite chats_app. lia.
  - apply Forall_app. now split.
Qed.

Lemma within_le (a b : nat) (evs : list event) :
  a <= b -> within a evs -> within b evs.
Proof. intros Hab [H F]. split; [lia | assumption]. Qed.

Lemma call_body_names_tool (name : jsval) (args : json) (tenant : string) :
  names_tool_under_name (TxCall (call_body name args tenant)).
Proof. destruct name; cbn; repeat split; reflexivity. Qed.

Section Emits.

Context {A B : Type}.

Lemma emits_quiet (m : M A) :
  (forall s, trace (snd (m s)) = trace s) -> emits 0 m.
Proof.
  intros H s. exists []. rewrite app_nil_r. split; [apply H | apply within_nil].
Qed.

Lemma emits_le (a b : nat) (m : M A) : a <= b -> emits a m -> emits b m.
Proof.
  intros Hab Hm s. destruct (Hm s) as (evs & Ht & Hw).
  exists evs. split; [assumption | eapply within_le; eauto].
Qed.

Lemma emits_bind (a b : nat) (m : M A) (k : A -> M B) :
  emits a m -> (forall x, emits b (k x)) -> emits (a + b) (bind m k).
Proof.
  intros Hm Hk s. destruct (Hm s) as (e1 & H1 & W1). unfold bind.
  destruct (m s) as [[x|e] s1]; cbn [snd] in H1.
  - destruct (Hk x s1) as (e2 & H2 & W2). exists (e1 ++ e2).
    rewrite H2, H1, app_assoc. split; [reflexivity | now apply within_app].
  - exists e1. cbn [snd]. split; [assumption|].
    eapply within_le; [|eassumption]. lia.
Qed.

End Emits.

Lemma emits_fetch (n : nat) (ev : event) (answer : list event -> fetched) :
  within n [ev] -> emits n (fetch ev answer).
Proof.
  intros Hw s. exists [ev]. rewrite fetch_eq.
  split; [now destruct (answer (trace s)) | assumption].
Qed.

Section HandlerEmits.

Variable JSON_parse : string -> option json.
Variable JSON_stringify : json -> string.
Variable E : env.

Lemma emits_openaiCompatChat (tools : json) : emits 1 (openaiCompatChat E tools).
Proof.
  intro s. unfold openaiCompatChat.
  apply (emits_bind 1 0).
  - apply emits_fetch. split; [apply Nat.le_refl | repeat constructor].
  - intro r. now apply emits_quiet.
Qed.

Lemma emits_run_tool_call (tenant : string) (tc : json) :
  emits 0 (run_tool_call JSON_parse JSON_stringify E tenant tc).
Proof.
  unfold run_tool_call.
  apply (emits_bind 0 0).
  { apply emits_fetch. split; [apply Nat.le_0_l|].
    constructor; [apply call_body_names_tool | constructor]. }
  intro r. apply (emits_bind 0 0).
  { apply emits_quiet. intro s. now destruct (parsed r). }
  intro v. apply (emits_bind 0 0).
  { apply emits_quiet. intro s. now destruct tc. }
  intro id. now apply emits_quiet.
Qed.

Lemma emits_for_each (tenant : string) (tcs : list json) :
  emits 0 (for_each tcs (run_tool_call JSON_parse JSON_stringify E tenant)).
Proof.
  induction tcs as [|tc tcs IH]; cbn [for_each].
  - now apply emits_quiet.
  - apply (emits_bind 0 0); [apply emits_run_tool_call | intros _; exact IH].
Qed.

Lemma emits_handle_completion (tenant : string) (out : json) :
  emits 0 (handle_completion JSON_parse JSON_stringify E tenant out).
Proof.
  unfold handle_completion. destruct (negb _).
  - now apply emits_quiet.
  - apply (emits_bind 0 0); [now apply emits_quiet|]. intros _.
    apply (emits_bind 0 0).
    { unfold for_of. destruct (iterate _).
      - apply emits_for_each.
      - now apply emits_quiet. }
    intros _. apply (emits_bind 0 0); now (try intros _; apply emits_quiet).
Qed.

Lemma emits_iteration (tenant : string) (tools : json) :
  emits 1 (iteration JSON_parse JSON_stringify E tenant tools).
Proof.
  unfold iteration. apply (emits_bind 1 0); [apply emits_openaiCompatChat|].
  intro out. apply emits_handle_completion.
Qed.

Lemma emits_for_loop (tenant : string) (tools : json) (after : M reply) (n : nat) :
  emits 0 after ->
  emits n (for_loop n (iteration JSON_parse JSON_stringify E tenant tools) after).
Proof.
  intro Hafter. induction n as [|n IH]; cbn [for_loop]; [assumption|].
  apply (emits_bind 1 n); [apply emits_iteration|].
  intros [r|]; [|exact IH].
  apply (emits_le 0); [apply Nat.le_0_l | now apply emits_quiet].
Qed.

Lemma emits_openai_compat (c : config) :
  emits 6 (openai_compat JSON_parse JSON_stringify E c).
Proof.
  unfold openai_compat.
  destruct (String.eqb (cfg_apiKey c) EmptyString).
  { apply (emits_le 0); [apply Nat.le_0_l | now apply emits_quiet]. }
  destruct (String.eqb (cfg_base c) EmptyString).
  { apply (emits_le 0); [apply Nat.le_0_l | now apply emits_quiet]. }
  destruct (negb _).
  - apply (emits_le (1 + 0)); [lia|].
    apply emits_bind; [apply emits_openaiCompatChat|].
    intro out. now apply emits_quiet.
  - apply (emits_bind 0 6).
    { apply emits_fetch. split; [apply Nat.le_0_l | repeat constructor]. }
    intro r. unfold tool_loop.
    apply (emits_bind 0 6); [now apply emits_quiet|]. intros _.
    apply emits_for_loop. now apply emits_quiet.
Qed.

Lemma agent_chat_within (c : config) :
  within 6 (trace (snd (agent_chat JSON_parse JSON_stringify E c))).
Proof.
  unfold agent_chat, catch_all.
  destruct (emits_openai_compat c (initial_state c)) as (evs & Ht & Hw).
  destruct (openai_compat _ _ _ _ _) as [[r|e] s']; cbn [snd] in *;
    rewrite Ht; exact Hw.
Qed.

(** C9: [POST /mcp/call] reads the tool identifier from [tool] and,
    when [tool] is absent (or otherwise falsy), from [name].  Every
    invocation request the handler posts carries no [tool] property: the
    endpoint finds the identifier through the fallback, and reading
    [tool] alone would select no tool.  What the fallback finds in the
    request built for a tool call is the function name the provider
    gave. *)
Theorem invocations_rely_on_name_fallback (c : config) :
  (forall body, truthy (get body "tool") = true -> call_tool body = get body "tool")
  /\ (forall body, truthy (get body "tool") = false -> call_tool body = get body "name")
  /\ Forall names_tool_under_name
       (trace (snd (agent_chat JSON_parse JSON_stringify E c)))
  /\ (forall tenant tc,
        call_tool (call_request JSON_parse tenant tc)
        = opt_get (opt_get (Some tc) "function") "name").
Proof.
  split; [|split; [|split]].
  - intros body H. unfold call_tool, js_or. now rewrite H.
  - intros body H. unfold call_tool, js_or. now rewrite H.
  - apply agent_chat_within.
  - intros tenant tc. unfold call_request.
    now destruct (opt_get (opt_get (Some tc) "function") "name").
Qed.

End HandlerEmits.

(** ** The loop *)

Section LoopFacts.

Variable JSON_parse : string -> option json.
Variable JSON_stringify : json -> string.
Variable E : env.
Variable tenant : string.
Variable tools : json.

Local Abbreviation pass := (iteration JSON_parse JSON_stringify E tenant tools).

Lemma chats_invocations (tcs : list json) :
  chats (map (fun tc => TxCall (call_request JSON_parse tenant tc)) tcs) = 0.
Proof. induction tcs; [reflexivity | assumption]. Qed.

Lemma chats_after_pass (s : state) (out : json) (tcs : list json) :
  chats (trace (after_pass JSON_parse JSON_stringify E tenant tools s out tcs))
  = S (chats (trace s)).
Proof.
  unfold after_pass; cbn [trace].
  change (TxChat ?rq :: ?l) with ([TxChat rq] ++ l).
  rewrite !chats_app, chats_invocations. cbn. lia.
Qed.

Lemma openaiCompatChat_eq (s : state) :
  openaiCompatChat E tools s
  = match provider E (chats (trace s)) with
    | Rejected e => (Throw e, sent s [TxChat (chat_request_of (messages s) tools)])
    | Responded r =>
        (completion_of r, sent s [TxChat (chat_request_of (messages s) tools)])
    end.
Proof.
  unfold openaiCompatChat, bind. rewrite fetch_eq.
  now destruct (provider E (chats (trace s))).
Qed.

(** Every pass starts with a completion request over [messages]. *)
Lemma pass_first_request (s : state) :
  exists rest,
    trace (snd (pass s))
    = trace s ++ TxChat (chat_request_of (messages s) tools) :: rest.
Proof.
  unfold iteration, bind. rewrite openaiCompatChat_eq.
  destruct (provider E (chats (trace s))) as [e|r]; [now exists []|].
  destruct (completion_of r) as [out|e]; [|now exists []].
  destruct (emits_handle_completion JSON_parse JSON_stringify E tenant out
              (sent s [TxChat (chat_request_of (messages s) tools)]))
    as (evs & Ht & _).
  exists evs. rewrite Ht. cbn [sent trace]. now rewrite <- app_assoc.
Qed.

Lemma for_loop_first_request (n : nat) (s : state) :
  exists rest,
    trace (snd (for_loop (S n) pass (ret exceeded) s))
    = trace s ++ TxChat (chat_request_of (messages s) tools) :: rest.
Proof.
  destruct (pass_first_request s) as (rest & Hrest).
  cbn [for_loop]. unfold bind at 1.
  destruct (iteration JSON_parse JSON_stringify E tenant tools s) as [[[r|]|e] s1];
    cbn [snd] in Hrest; try (now exists rest).
  destruct (emits_for_loop JSON_parse JSON_stringify E tenant tools (ret exceeded) n
              ltac:(now apply emits_quiet) s1) as (evs & Ht & _).
  exists (rest ++ evs). rewrite Ht, Hrest, <- app_assoc. reflexivity.
Qed.

Lemma iteration_terminal (s : state) (out : json) :
  completes E (chats (trace s)) out ->
  toolCalls_of out = JArr [] ->
  pass s = (Val (Return (reply_json (content_of out))),
            sent s [TxChat (chat_request_of (messages s) tools)]).
Proof.
  intros Hout Hnone. unfold iteration.
  rewrite (bind_val _ _ _ _ _ (openaiCompatChat_completes E tools s out Hout)).
  unfold handle_completion. now rewrite Hnone.
Qed.

(** C7: a completion without tool calls ends the loop in the pass that
    receives it.  The handler answers with status 200 and the body
    [{ reply }], the reply being that completion's content -- the text
    itself when the content is a string --, and the only request of the
    pass is the completion request. *)
Theorem terminal_reply_ends_loop (n : nat) (after : M reply) (s : state) (out : json) :
  completes E (chats (trace s)) out ->
  toolCalls_of out = JArr [] ->
  for_loop (S n) pass after s
    = (Val {| code := 200; payload := JObj [("reply", content_of out)] |},
       {| messages := messages s; loopMessages := loopMessages s;
          trace := trace s ++ [TxChat (chat_request_of (messages s) tools)] |})
  /\ (forall txt,
        opt_get (opt_get (opt_first (opt_get (Some out) "choices")) "message") "content"
        = Some (JStr txt) ->
        fst (for_loop (S n) pass after s)
        = Val {| code := 200; payload := JObj [("reply", JStr txt)] |}).
Proof.
  intros Hout Hnone.
  assert (Hrun : for_loop (S n) pass after s
                 = (Val (reply_json (content_of out)),
                    sent s [TxChat (chat_request_of (messages s) tools)])).
  { cbn [for_loop].
    now rewrite (bind_val _ _ _ _ _ (iteration_terminal s out Hout Hnone)). }
  split; [exact Hrun|].
  intros txt Htxt. rewrite Hrun. cbn [fst]. unfold reply_json. do 4 f_equal.
  assert (Hmsg : opt_get (Some (msg_of out)) "content" = Some (JStr txt)).
  { unfold msg_of, first_message, or_else, js_or.
    destruct (opt_get (opt_first (opt_get (Some out) "choices")) "message")
      as [m|]; [|discriminate Htxt].
    destruct (truthy (Some m)) eqn:Hm; [exact Htxt|].
    destruct m; cbn in Htxt, Hm; try discriminate Htxt; discriminate Hm. }
  unfold content_of, or_else, js_or. rewrite Hmsg. cbn [truthy].
  destruct (String.eqb txt EmptyString) eqn:Hempty; cbn [negb]; [|reflexivity].
  apply String.eqb_eq in Hempty. now subst.
Qed.

(** Passes that all ask for tools and have them answered use the loop
    up: [n] passes, [n] completion requests, then [after]. *)
Lemma for_loop_runs_out (after : M reply) (n : nat) :
  forall s,
    (forall k, k < n ->
       exists out tcs, completes E (chats (trace s) + k) out /\ requests_tools out tcs) ->
    (forall k, answered E k) ->
    exists s',
      for_loop n pass after s = after s'
      /\ chats (trace s') = chats (trace s) + n.
Proof.
  induction n as [|n IH]; intros s Hrep Hans.
  - exists s. split; [reflexivity | lia].
  - destruct (Hrep 0 ltac:(lia)) as (out & tcs & Hout & Htcs).
    rewrite Nat.add_0_r in Hout.
    cbn [for_loop].
    rewrite (bind_val _ _ _ _ _
               (iteration_continues JSON_parse JSON_stringify E tenant tools
                  s out tcs Hout Htcs (fun k _ => Hans _))).
    destruct (IH (after_pass JSON_parse JSON_stringify E tenant tools s out tcs))
      as (s' & Hloop & Hchats).
    + intros k Hk. rewrite chats_after_pass.
      replace (S (chats (trace s)) + k) with (chats (trace s) + S k) by lia.
      apply Hrep. lia.
    + assumption.
    + exists s'. split; [assumption|]. rewrite Hchats, chats_after_pass. lia.
Qed.

Lemma iteration_aborts (s : state) (out : json) (tcs : list json) (e : exn) :
  completes E (chats (trace s)) out ->
  requests_tools out tcs ->
  (forall k, k < List.length tcs -> answered_or_rejected E (calls (trace s) + k)) ->
  first_rejection E (calls (trace s)) tcs = Some e ->
  exists s1, pass s = (Throw e, s1) /\ chats (trace s1) = S (chats (trace s)).
Proof.
  intros Hout (Htcs & Hne & Hnn) Hans Hrej. unfold iteration.
  rewrite (bind_val _ _ _ _ _ (openaiCompatChat_completes E tools s out Hout)).
  unfold handle_completion. rewrite Htcs. destruct tcs as [|tc tcs]; [now elim Hne|].
  cbn [js_length truthy negb List.length].
  replace (negb (Z.of_nat (S (List.length tcs)) =? 0)%Z) with true
    by (symmetry; apply negb_true_iff, Z.eqb_neq; lia).
  cbn [negb]. unfold bind at 1. unfold push_loop at 1.
  unfold for_of; cbn [iterate]. unfold bind at 1.
  match goal with
  | |- context [for_each _ _ ?s0] =>
      destruct (for_each_rejected JSON_parse JSON_stringify E tenant (tc :: tcs) s0 e)
        as (s1 & Hfor & Hchats)
  end.
  - assumption.
  - intros k Hk. cbn -[calls]. rewrite calls_app, Nat.add_0_r. now apply Hans.
  - cbn -[calls first_rejection]. now rewrite calls_app, Nat.add_0_r.
  - rewrite Hfor. exists s1. split; [reflexivity|].
    rewrite Hchats. cbn -[chats]. rewrite chats_app. cbn. lia.
Qed.

(** C1, as the code has it.  A completion asks for tools, none of the
    tool calls being [null], and the registry either answers an
    invocation with a JSON body -- of whatever status, so also the error
    bodies of failed invocations -- or cannot be reached for it.  If it is
    reached for all of them, the pass appends the assistant message and
    one tool message per call that carries that body, and the loop goes
    on with the passes that are left: when there is one, its next request
    is a completion request over the extended conversation, and after
    the last pass the handler answers the fixed message with status 200.
    If an invocation meets a network failure, no further completion is
    requested and the handler answers 500 [agent_failed]. *)
Theorem invocation_failure_in_the_loop
    (n : nat) (s : state) (out : json) (tcs : list json) :
  completes E (chats (trace s)) out ->
  requests_tools out tcs ->
  (forall k, k < List.length tcs -> answered_or_rejected E (calls (trace s) + k)) ->
  match first_rejection E (calls (trace s)) tcs with
  | None =>
      let s' := after_pass JSON_parse JSON_stringify E tenant tools s out tcs in
      for_loop (S n) pass (ret exceeded) s = for_loop n pass (ret exceeded) s'
      /\ loopMessages s'
         = loopMessages s ++ assistant_message out
             :: tool_messages JSON_stringify E (calls (trace s)) tcs
      /\ match n with
         | O =>
             for_loop 1 pass (ret exceeded) s
             = (Val {| code := 200;
                       payload :=
                         JObj [("reply",
                                JStr "Tool orchestration exceeded max iterations.")] |},
                s')
         | S _ =>
             exists rest,
               trace (snd (for_loop (S n) pass (ret exceeded) s))
               = trace s' ++ TxChat (chat_request_of (loopMessages s') tools) :: rest
         end
  | Some e =>
      fst (catch_all (for_loop (S n) pass (ret exceeded)) s)
        = {| code := 500;
             payload := JObj [("error", JStr "agent_failed");
                              ("detail", JStr (detail_of e))] |}
      /\ chats (trace (snd (catch_all (for_loop (S n) pass (ret exceeded)) s)))
         = S (chats (trace s))
  end.
Proof.
  intros Hout Htcs Hans.
  destruct (first_rejection E (calls (trace s)) tcs) as [e|] eqn:Hrej.
  - destruct (iteration_aborts s out tcs e Hout Htcs Hans Hrej) as (s1 & Hpass & Hchats).
    unfold catch_all.
    change (for_loop (S n) pass (ret exceeded) s)
      with (bind pass (fun st => match st with
                                 | Return r => ret r
                                 | Continue => for_loop n pass (ret exceeded)
                                 end) s).
    rewrite (bind_throw _ _ _ _ _ Hpass). cbn [fst snd]. split; [reflexivity | exact Hchats].
  - intro s'.
    pose proof (no_rejection_answered E tcs (calls (trace s)) Hans Hrej) as Hall.
    assert (Hstep : forall m, for_loop (S m) pass (ret exceeded) s
                              = for_loop m pass (ret exceeded) s').
    { intro m.
      change (for_loop (S m) pass (ret exceeded) s)
        with (bind pass (fun st => match st with
                                   | Return r => ret r
                                   | Continue => for_loop m pass (ret exceeded)
                                   end) s).
      now rewrite (bind_val _ _ _ _ _
                     (iteration_continues JSON_parse JSON_stringify E tenant tools
                        s out tcs Hout Htcs Hall)). }
    split; [apply Hstep|]. split; [reflexivity|].
    destruct n as [|n]; [now rewrite Hstep|].
    rewrite Hstep. apply for_loop_first_request.
Qed.

End LoopFacts.

(** ** The alternation of the conversation *)

Section AlternationFacts.

Variable JSON_parse : string -> option json.
Variable JSON_stringify : json -> string.
Variable E : env.
Variable tenant : string.
Variable tools : json.

Lemma alternates_app (l1 l2 : list message) :
  forall pending,
    alternates pending l1 -> alternates [] l2 -> alternates pending (l1 ++ l2).
Proof.
  induction l1 as [|m l1 IH]; intros pending H1 H2; cbn [app alternates] in *.
  - now subst.
  - destruct (String.eqb (role m) "tool").
    + destruct pending as [|id more]; [contradiction|].
      destruct H1 as [Hid H1]. split; [assumption | now apply IH].
    + destruct H1 as [Hp H1]. split; [assumption | now apply IH].
Qed.

Lemma alternates_answers (ms : list message) :
  Forall (fun m => role m = "tool") ms ->
  alternates (map tool_call_id ms) ms.
Proof.
  induction 1 as [|m ms Hm _ IH]; cbn [map alternates]; [reflexivity|].
  rewrite Hm. cbn. split; [reflexivity | exact IH].
Qed.

Lemma initial_messages_alternate (c : config) : alternates [] (initial_messages c).
Proof.
  unfold initial_messages. destruct (String.eqb (cfg_system c) EmptyString); cbn; auto.
Qed.

Lemma run_tool_call_inv (tc : json) (s s' : state) :
  run_tool_call JSON_parse JSON_stringify E tenant tc s = (Val tt, s') ->
  exists callJson,
    loopMessages s' = loopMessages s ++ [tool_message JSON_stringify tc callJson].
Proof.
  unfold run_tool_call, bind. rewrite fetch_eq.
  destruct (registry_call E (calls (trace s))) as [e|r]; [discriminate|].
  destruct (parsed r) as [v|]; [|discriminate].
  unfold ret, throw, push_loop. intro H.
  destruct tc; cbn in H; try discriminate H;
    inversion H; subst; cbn [loopMessages]; exists v; reflexivity.
Qed.

Lemma for_each_inv (tcs : list json) :
  forall s s',
    for_each tcs (run_tool_call JSON_parse JSON_stringify E tenant) s = (Val tt, s') ->
    exists ms,
      loopMessages s' = loopMessages s ++ ms
      /\ map tool_call_id ms = map (fun tc => get tc "id") tcs
      /\ Forall (fun m => role m = "tool") ms.
Proof.
  induction tcs as [|tc tcs IH]; intros s s' H; cbn [for_each] in H.
  - inversion H; subst. exists []. rewrite app_nil_r. repeat split. constructor.
  - apply bind_inv in H as ([] & s1 & H1 & H).
    apply run_tool_call_inv in H1 as (v & H1).
    apply IH in H as (ms & Hms & Hids & Hroles).
    exists (tool_message JSON_stringify tc v :: ms).
    rewrite Hms, H1, <- app_assoc. cbn [map app]. rewrite Hids.
    repeat split. constructor; [reflexivity | assumption].
Qed.

(** A pass that runs to its end has appended the assistant message and
    then exactly one tool message per call, in the order of the calls. *)
Lemma iteration_inv (s s' : state) :
  iteration JSON_parse JSON_stringify E tenant tools s = (Val Continue, s') ->
  exists out tcs ms,
    iterate (toolCalls_of out) = Some tcs
    /\ loopMessages s' = loopMessages s ++ assistant_message out :: ms
    /\ map tool_call_id ms = map (fun tc => get tc "id") tcs
    /\ Forall (fun m => role m = "tool") ms
    /\ messages s' = loopMessages s'.
Proof.
  unfold iteration. intro H. apply bind_inv in H as (out & s1 & Hchat & H).
  rewrite openaiCompatChat_eq in Hchat.
  assert (Hframe : loopMessages s1 = loopMessages s).
  { destruct (provider E (chats (trace s))); inversion Hchat; reflexivity. }
  unfold handle_completion in H.
  destruct (negb _); [discriminate|].
  apply bind_inv in H as ([] & s2 & Hpush & H).
  apply bind_inv in H as ([] & s3 & Hfor & H).
  apply bind_inv in H as ([] & s4 & Hupd & H).
  unfold for_of in Hfor.
  destruct (iterate (toolCalls_of out)) as [tcs|] eqn:Hit; [|discriminate].
  apply for_each_inv in Hfor as (ms & Hms & Hids & Hroles).
  exists out, tcs, ms.
  inversion Hpush; inversion Hupd; inversion H; subst; cbn [loopMessages messages] in *.
  rewrite Hms, Hframe, <- app_assoc. repeat split; assumption.
Qed.

(** C4: from the conversation the handler starts the loop with, and
    after any number of passes that ran to their end, every tool message
    answers the oldest unanswered call of the assistant message before
    it, and every such call is answered before the next message: one tool
    message per call, ids in the order of the calls.  After a pass, this
    conversation is also what [messages] holds for the next request. *)
Theorem tool_messages_follow_their_calls (c : config) (s0 : state) (n : nat) (s : state) :
  loopMessages s0 = initial_messages c ->
  after_iterations JSON_parse JSON_stringify E tenant tools s0 n s ->
  alternates [] (loopMessages s)
  /\ (0 < n -> messages s = loopMessages s).
Proof.
  intros Hinit Hpasses. induction Hpasses as [|n s s' _ IH Hpass].
  - split; [|intro H; inversion H].
    rewrite Hinit. apply initial_messages_alternate.
  - apply iteration_inv in Hpass as (out & tcs & ms & Hit & Hconv & Hids & Hroles & Hm).
    split; [|intros _; exact Hm].
    rewrite Hconv. apply alternates_app; [exact (proj1 IH)|].
    change (alternates [] (assistant_message out :: ms))
      with ([] = ([] : list jsval) /\ alternates (call_ids (assistant_message out)) ms).
    split; [reflexivity|].
    change (call_ids (assistant_message out))
      with (match iterate (toolCalls_of out) with
            | Some tcs => map (fun tc => get tc "id") tcs
            | None => []
            end).
    rewrite Hit, <- Hids. now apply alternates_answers.
Qed.

End AlternationFacts.

(** ** The handler *)

Section HandlerFacts.

Variable JSON_parse : string -> option json.
Variable JSON_stringify : json -> string.
Variable E : env.

Lemma openai_compat_tools (c : config) (s : state) (rt : response) :
  tools_on c ->
  registry_tools E = Responded rt ->
  openai_compat JSON_parse JSON_stringify E c s
  = tool_loop JSON_parse JSON_stringify E (cfg_tenant c)
      (toOpenAITools (rawTools_of rt)) (sent s [TxTools (cfg_tenant c)]).
Proof.
  intros (Hkey & Hbase & Hon & Hurl) Hrt. unfold openai_compat.
  apply String.eqb_neq in Hkey, Hbase, Hurl.
  rewrite Hkey, Hbase, Hon, Hurl. cbn [negb andb].
  unfold bind at 1. now rewrite fetch_eq, Hrt.
Qed.

Lemma rawTools_of_unreadable (rt : response) :
  no_tool_list rt -> rawTools_of rt = JArr [].
Proof.
  unfold no_tool_list, rawTools_of. destruct (parsed rt) as [v|]; [|reflexivity].
  intro H. destruct (opt_get (Some v) "tools") as [[| | | |items|]|] eqn:Ht;
    try reflexivity.
  now elim (H items).
Qed.

Lemma catch_all_trace (m : M reply) (s : state) :
  trace (snd (catch_all m s)) = trace (snd (m s)).
Proof. unfold catch_all. now destruct (m s) as [[r|e] s']. Qed.

Lemma openai_compat_tools_rejected (c : config) (s : state) (e : exn) :
  tools_on c ->
  registry_tools E = Rejected e ->
  openai_compat JSON_parse JSON_stringify E c s
  = (Throw e, sent s [TxTools (cfg_tenant c)]).
Proof.
  intros (Hkey & Hbase & Hon & Hurl) Hrt. unfold openai_compat.
  apply String.eqb_neq in Hkey, Hbase, Hurl.
  rewrite Hkey, Hbase, Hon, Hurl. cbn [negb andb].
  unfold bind at 1. now rewrite fetch_eq, Hrt.
Qed.

(** C2, as the code has it.  Tools are enabled and the tool-list request
    fails to bring a list of tools.  If it is answered -- with a body that
    is not JSON, or without an array under [tools], of whatever status --
    the loop runs with the empty tool list: the handler goes on exactly as
    the loop does with no tools, and its next request is a completion
    request that carries none.  If it meets a network failure, the handler
    answers 500 [agent_failed] and requests no completion. *)
Theorem tool_list_failure_outcomes (c : config) :
  tools_on c ->
  (forall rt, registry_tools E = Responded rt -> no_tool_list rt) ->
  match registry_tools E with
  | Responded _ =>
      agent_chat JSON_parse JSON_stringify E c
      = catch_all (tool_loop JSON_parse JSON_stringify E (cfg_tenant c) (JArr []))
          (sent (initial_state c) [TxTools (cfg_tenant c)])
      /\ exists rest,
           trace (snd (agent_chat JSON_parse JSON_stringify E c))
           = TxTools (cfg_tenant c)
             :: TxChat {| req_messages := initial_messages c;
                          req_tools := None; req_tool_choice := None |}
             :: rest
  | Rejected e =>
      agent_chat JSON_parse JSON_stringify E c
      = (error_reply 500 "agent_failed" (detail_of e),
         sent (initial_state c) [TxTools (cfg_tenant c)])
  end.
Proof.
  intros Hon Hnone. destruct (registry_tools E) as [e|rt] eqn:Hrt.
  - unfold agent_chat, catch_all.
    now rewrite (openai_compat_tools_rejected c _ e Hon Hrt).
  - assert (Hrun : agent_chat JSON_parse JSON_stringify E c
                   = catch_all (tool_loop JSON_parse JSON_stringify E (cfg_tenant c) (JArr []))
                       (sent (initial_state c) [TxTools (cfg_tenant c)])).
    { unfold agent_chat, catch_all.
      rewrite (openai_compat_tools c _ rt Hon Hrt),
        (rawTools_of_unreadable rt (Hnone rt eq_refl)).
      reflexivity. }
    split; [exact Hrun|].
    rewrite Hrun, catch_all_trace. unfold tool_loop, bind, copy_messages.
    apply (for_loop_first_request JSON_parse JSON_stringify E (cfg_tenant c) (JArr []) 5).
Qed.

(** C3, as the code has it: when the tool list is answered and the
    adapter does not raise on it, each of the six completions asks for at
    least one tool call, none of them [null], and the registry answers
    every invocation with a JSON body, the handler sends exactly six
    completion requests and answers the fixed message with status 200;
    and no run, whatever the network does, sends more than six. *)
Theorem loop_stops_after_six_completions (c : config) :
  tools_on c ->
  (exists rt,
      registry_tools E = Responded rt /\ toOpenAITools_raises (rawTools_of rt) = false) ->
  (forall k, k < 6 -> exists out tcs, completes E k out /\ requests_tools out tcs) ->
  (forall k, answered E k) ->
  fst (chat_handler JSON_parse JSON_stringify E c)
    = {| code := 200;
         payload := JObj [("reply", JStr "Tool orchestration exceeded max iterations.")] |}
  /\ chats (trace (snd (chat_handler JSON_parse JSON_stringify E c))) = 6
  /\ (forall E' c', chats (trace (snd (chat_handler JSON_parse JSON_stringify E' c'))) <= 6).
Proof.
  intros Hon (rt & Hrt & Hprints) Hrep Hans.
  assert (Hrun : exists s',
             agent_chat JSON_parse JSON_stringify E c = (exceeded, s')
             /\ chats (trace s') = 6).
  { unfold agent_chat, catch_all.
    rewrite (openai_compat_tools c _ rt Hon Hrt).
    unfold tool_loop, bind at 1, copy_messages.
    match goal with
    | |- context [for_loop 6 _ _ ?s0] =>
        destruct (for_loop_runs_out JSON_parse JSON_stringify E (cfg_tenant c)
                    (toOpenAITools (rawTools_of rt)) (ret exceeded) 6 s0)
          as (s' & Hloop & Hchats); [| exact Hans |]
    end.
    - intros k Hk. exact (Hrep k Hk).
    - rewrite Hloop. exists s'. split; [reflexivity | exact Hchats]. }
  destruct Hrun as (s' & Hrun & Hchats).
  unfold chat_handler at 1 2. rewrite Hrt, Hprints, andb_false_r, Hrun. cbn [fst snd].
  split; [reflexivity|]. split; [exact Hchats|].
  intros E' c'. unfold chat_handler.
  destruct (registry_tools E') as [e|rt'];
    [apply (agent_chat_within JSON_parse JSON_stringify E' c')|].
  destruct (_ && _)%bool; [cbn; lia|].
  apply (agent_chat_within JSON_parse JSON_stringify E' c').
Qed.

End HandlerFacts.

(** ** The statements at the sample inputs *)

(** C1 fails as stated: the only tool call of the first completion
    meets a network failure, and the handler answers 500 [agent_failed]
    after a single completion request, without a tool message.  Nor is
    every batch that the registry answers followed by another
    completion: a batch whose tool call is [null] ends the run with 500
    once the registry has answered, and the sixth batch is followed by
    the fixed message. *)
Lemma network_failure_of_invocation_aborts_run :
  requests_tools Sample.calling [Sample.list_call]
  /\ registry_call Sample.registry_unreachable 0 = Rejected Sample.econnrefused
  /\ fst (chat_handler Sample.parse_braces Sample.stringify
            Sample.registry_unreachable Sample.request)
     = {| code := 500;
          payload :=
            JObj [("error", JStr "agent_failed");
                  ("detail",
                   JStr "request to http://mcp-server:8081 failed, reason: connect ECONNREFUSED")] |}
  /\ chats (trace (snd (chat_handler Sample.parse_braces Sample.stringify
                          Sample.registry_unreachable Sample.request))) = 1
  /\ loopMessages (snd (chat_handler Sample.parse_braces Sample.stringify
                          Sample.registry_unreachable Sample.request))
     = initial_messages Sample.request
         ++ [{| role := "assistant"; content := JStr EmptyString;
                tool_calls := Some (JArr [Sample.list_call]); tool_call_id := None |}]
  /\ toolCalls_of Sample.calling_null = JArr [JNull]
  /\ chat_handler Sample.parse_braces Sample.stringify
       Sample.always_calling_null Sample.request
     = ({| code := 500;
           payload :=
             JObj [("error", JStr "agent_failed");
                   ("detail", JStr "Cannot read properties of null (reading 'id')")] |},
        {| messages := initial_messages Sample.request;
           loopMessages :=
             initial_messages Sample.request
               ++ [{| role := "assistant"; content := JStr EmptyString;
                      tool_calls := Some (JArr [JNull]); tool_call_id := None |}];
           trace := [TxTools "default";
                     TxChat (chat_request_of (initial_messages Sample.request)
                               (toOpenAITools (items_of_tool_list Sample.tool_list)));
                     TxCall (JObj [("args", JObj []); ("tenant", JStr "default")])] |})
  /\ fst (chat_handler Sample.parse_braces Sample.stringify
            Sample.always_calling Sample.request)
     = {| code := 200;
          payload := JObj [("reply", JStr "Tool orchestration exceeded max iterations.")] |}
  /\ chats (trace (snd (chat_handler Sample.parse_braces Sample.stringify
                          Sample.always_calling Sample.request))) = 6.
Proof.
  split.
  { split; [reflexivity|]. split; [discriminate|].
    constructor; [discriminate | constructor]. }
  repeat split; reflexivity.
Qed.

(** C2 fails as stated: the tool-list request meets a network failure,
    and the handler answers 500 [agent_failed] without a completion
    request. *)
Lemma tool_list_network_error_fails_request :
  tools_on Sample.request
  /\ registry_tools Sample.tools_unreachable = Rejected Sample.econnrefused
  /\ fst (agent_chat Sample.parse_braces Sample.stringify
            Sample.tools_unreachable Sample.request)
     = error_reply 500 "agent_failed" (exn_message Sample.econnrefused)
  /\ trace (snd (agent_chat Sample.parse_braces Sample.stringify
                   Sample.tools_unreachable Sample.request))
     = [TxTools "default"].
Proof.
  split.
  { repeat split; try discriminate. }
  repeat split; reflexivity.
Qed.

(** C3 fails as stated: every completion asks for a tool call, the
    invocation meets a network failure, and the run ends after one
    completion request with 500 [agent_failed], not the fixed message.
    So does a run whose tool call is [null], once the registry has
    answered the invocation, and a run whose tool list has a description
    that hides [toString] ends so before any completion is requested. *)
Lemma tool_calls_in_every_reply_without_cap_message :
  (forall k, exists out tcs,
      completes Sample.always_calling_unreachable k out /\ requests_tools out tcs)
  /\ fst (chat_handler Sample.parse_braces Sample.stringify
            Sample.always_calling_unreachable Sample.request)
     = {| code := 500;
          payload :=
            JObj [("error", JStr "agent_failed");
                  ("detail",
                   JStr "request to http://mcp-server:8081 failed, reason: connect ECONNREFUSED")] |}
  /\ fst (chat_handler Sample.parse_braces Sample.stringify
            Sample.always_calling_unreachable Sample.request)
     <> {| code := 200;
           payload := JObj [("reply", JStr "Tool orchestration exceeded max iterations.")] |}
  /\ chats (trace (snd (chat_handler Sample.parse_braces Sample.stringify
                          Sample.always_calling_unreachable Sample.request))) = 1
  /\ toolCalls_of Sample.calling_null = JArr [JNull]
  /\ fst (chat_handler Sample.parse_braces Sample.stringify
            Sample.always_calling_null Sample.request)
     = {| code := 500;
          payload :=
            JObj [("error", JStr "agent_failed");
                  ("detail", JStr "Cannot read properties of null (reading 'id')")] |}
  /\ chats (trace (snd (chat_handler Sample.parse_braces Sample.stringify
                          Sample.always_calling_null Sample.request))) = 1
  /\ chat_handler Sample.parse_braces Sample.stringify
       Sample.always_calling_hidden Sample.request
     = ({| code := 500;
           payload :=
             JObj [("error", JStr "agent_failed");
                   ("detail", JStr "Cannot convert object to primitive value")] |},
        {| messages := initial_messages Sample.request; loopMessages := [];
           trace := [TxTools "default"] |}).
Proof.
  split.
  { intro k. exists Sample.calling, [Sample.list_call]. split.
    - eexists. split; reflexivity.
    - split; [reflexivity|]. split; [discriminate|].
      constructor; [discriminate | constructor]. }
  split; [reflexivity|]. split; [discriminate|]. repeat split; reflexivity.
Qed.

Lemma invocation_failure_in_the_loop_witness :
  completes Sample.registry_failing (chats (trace Sample.loop_entry)) Sample.calling
  /\ requests_tools Sample.calling [Sample.list_call]
  /\ (forall k, k < 1 ->
        answered_or_rejected Sample.registry_failing
          (calls (trace Sample.loop_entry) + k))
  /\ registry_call Sample.registry_failing 0
     = Sample.json_response 502 Sample.mcp_failed
  /\ loopMessages
       (after_pass Sample.parse_braces Sample.stringify Sample.registry_failing
          "default" (JArr []) Sample.loop_entry Sample.calling [Sample.list_call])
     = initial_messages Sample.request
         ++ [{| role := "assistant"; content := JStr EmptyString;
                tool_calls := Some (JArr [Sample.list_call]); tool_call_id := None |};
             {| role := "tool"; content := JStr (Sample.stringify Sample.mcp_failed);
                tool_calls := None; tool_call_id := Some (JStr "call_1") |}].
Proof.
  assert (H1 : completes Sample.registry_failing (chats (trace Sample.loop_entry))
                 Sample.calling)
    by (eexists; split; reflexivity).
  assert (H2 : requests_tools Sample.calling [Sample.list_call]).
  { split; [reflexivity|]. split; [discriminate|].
    constructor; [discriminate | constructor]. }
  assert (H3 : forall k, k < 1 ->
                 answered_or_rejected Sample.registry_failing
                   (calls (trace Sample.loop_entry) + k))
    by (intros k _; left; eexists; eexists; split; reflexivity).
  split; [exact H1|]. split; [exact H2|]. split; [exact H3|]. split; [reflexivity|].
  exact (proj1 (proj2 (invocation_failure_in_the_loop
                         Sample.parse_braces Sample.stringify Sample.registry_failing
                         "default" (JArr []) 4 Sample.loop_entry Sample.calling
                         [Sample.list_call] H1 H2 H3))).
Defined.

Lemma tool_list_failure_outcomes_witness :
  tools_on Sample.request
  /\ (forall rt, registry_tools Sample.tools_unreadable = Responded rt -> no_tool_list rt)
  /\ agent_chat Sample.parse_braces Sample.stringify Sample.tools_unreadable Sample.request
     = catch_all (tool_loop Sample.parse_braces Sample.stringify Sample.tools_unreadable
                    "default" (JArr []))
         (sent (initial_state Sample.request) [TxTools "default"]).
Proof.
  assert (H1 : tools_on Sample.request) by (repeat split; discriminate).
  assert (H2 : forall rt, registry_tools Sample.tools_unreadable = Responded rt ->
                 no_tool_list rt).
  { intros rt Hrt. inversion Hrt; subst. exact I. }
  split; [exact H1|]. split; [exact H2|].
  exact (proj1 (tool_list_failure_outcomes
                  Sample.parse_braces Sample.stringify Sample.tools_unreadable
                  Sample.request H1 H2)).
Defined.

Lemma loop_stops_after_six_completions_witness :
  tools_on Sample.request
  /\ (exists rt,
        registry_tools Sample.always_calling = Responded rt
        /\ toOpenAITools_raises (rawTools_of rt) = false)
  /\ (forall k, k < 6 ->
        exists out tcs, completes Sample.always_calling k out /\ requests_tools out tcs)
  /\ (forall k, answered Sample.always_calling k)
  /\ fst (chat_handler Sample.parse_braces Sample.stringify Sample.always_calling
            Sample.request)
     = {| code := 200;
          payload := JObj [("reply", JStr "Tool orchestration exceeded max iterations.")] |}
  /\ chats (trace (snd (chat_handler Sample.parse_braces Sample.stringify
                          Sample.always_calling Sample.request))) = 6.
Proof.
  assert (H1 : tools_on Sample.request) by (repeat split; discriminate).
  assert (H2 : exists rt,
                 registry_tools Sample.always_calling = Responded rt
                 /\ toOpenAITools_raises (rawTools_of rt) = false)
    by (eexists; split; reflexivity).
  assert (H3 : forall k, k < 6 ->
                 exists out tcs,
                   completes Sample.always_calling k out /\ requests_tools out tcs).
  { intros k _. exists Sample.calling, [Sample.list_call]. split.
    - eexists. split; reflexivity.
    - split; [reflexivity|]. split; [discriminate|].
      constructor; [discriminate | constructor]. }
  assert (H4 : forall k, answered Sample.always_calling k)
    by (intro k; eexists; eexists; split; reflexivity).
  split; [exact H1|]. split; [exact H2|]. split; [exact H3|]. split; [exact H4|].
  pose proof (loop_stops_after_six_completions
                Sample.parse_braces Sample.stringify Sample.always_calling
                Sample.request H1 H2 H3 H4) as (Hr & Hn & _).
  split; [exact Hr | exact Hn].
Defined.

Lemma tool_messages_follow_their_calls_witness :
  loopMessages Sample.loop_entry = initial_messages Sample.request
  /\ after_iterations Sample.parse_braces Sample.stringify Sample.registry_failing
       "default" (JArr []) Sample.loop_entry 1
       (after_pass Sample.parse_braces Sample.stringify Sample.registry_failing
          "default" (JArr []) Sample.loop_entry Sample.calling [Sample.list_call])
  /\ alternates []
       (loopMessages
          (after_pass Sample.parse_braces Sample.stringify Sample.registry_failing
             "default" (JArr []) Sample.loop_entry Sample.calling [Sample.list_call])).
Proof.
  assert (H2 : after_iterations Sample.parse_braces Sample.stringify
                 Sample.registry_failing "default" (JArr []) Sample.loop_entry 1
                 (after_pass Sample.parse_braces Sample.stringify
                    Sample.registry_failing "default" (JArr []) Sample.loop_entry
                    Sample.calling [Sample.list_call])).
  { apply (passes_more _ _ _ _ _ _ 0 Sample.loop_entry);
      [apply passes_none | reflexivity]. }
  split; [reflexivity|]. split; [exact H2|].
  exact (proj1 (tool_messages_follow_their_calls
                  Sample.parse_braces Sample.stringify Sample.registry_failing "default"
                  (JArr []) Sample.request Sample.loop_entry 1 _ eq_refl H2)).
Defined.

Lemma terminal_reply_ends_loop_witness :
  completes Sample.tools_unreadable (chats (trace Sample.loop_entry)) Sample.final
  /\ toolCalls_of Sample.final = JArr []
  /\ for_loop 6
       (iteration Sample.parse_braces Sample.stringify Sample.tools_unreadable
          "default" (JArr []))
       (ret exceeded) Sample.loop_entry
     = (Val {| code := 200; payload := JObj [("reply", JStr "done")] |},
        {| messages := initial_messages Sample.request;
           loopMessages := initial_messages Sample.request;
           trace := [TxTools "default";
                     TxChat {| req_messages := initial_messages Sample.request;
                               req_tools := None; req_tool_choice := None |}] |}).
Proof.
  assert (H1 : completes Sample.tools_unreadable (chats (trace Sample.loop_entry))
                 Sample.final)
    by (eexists; split; reflexivity).
  split; [exact H1|]. split; [reflexivity|].
  exact (proj1 (terminal_reply_ends_loop
                  Sample.parse_braces Sample.stringify Sample.tools_unreadable
                  "default" (JArr []) 5 (ret exceeded) Sample.loop_entry Sample.final
                  H1 eq_refl)).
Defined.

Lemma logs_positive_limit_witness :
  (0 < 2)%Z /\ List.length [1; 2; 3] <= 500
  /\ logs nat 500 [1; 2; 3] (Some (Int 2)) = [2; 3].
Proof.
  assert (H1 : (0 < 2)%Z) by reflexivity.
  assert (H2 : List.length [1; 2; 3] <= 500) by (cbn; lia).
  split; [exact H1|]. split; [exact H2|].
  exact (proj1 (logs_positive_limit nat 500 [1; 2; 3] 2 H1 H2)).
Defined.

Lemma toOpenAITools_idempotent_named_witness :
  Forall named (items_of (toOpenAITools (items_of_tool_list Sample.tool_list)))
  /\ toOpenAITools (toOpenAITools (items_of_tool_list Sample.tool_list))
     = toOpenAITools (items_of_tool_list Sample.tool_list).
Proof.
  assert (H : Forall named
                (items_of (toOpenAITools (items_of_tool_list Sample.tool_list))))
    by (repeat constructor).
  split; [exact H|].
  exact (toOpenAITools_idempotent_named _ H).
Defined.

(** ** Strings: suffixes *)

Section SuffixFacts.

Lemma length_app_string (a s : string) :
  String.length (a ++ s) = String.length a + String.length s.
Proof. induction a as [|c a IH]; cbn; [reflexivity | now rewrite IH]. Qed.

Lemma app_assoc_string (a b c : string) : ((a ++ b) ++ c = a ++ (b ++ c))%string.
Proof. induction a as [|x a IH]; cbn; [reflexivity | now rewrite IH]. Qed.

Lemma app_empty_string (a : string) : (a ++ EmptyString = a)%string.
Proof. induction a as [|x a IH]; cbn; [reflexivity | now rewrite IH]. Qed.

Lemma substring_whole (s : string) : substring 0 (String.length s) s = s.
Proof. induction s as [|c s IH]; cbn; [reflexivity | now rewrite IH]. Qed.

Lemma substring_after (a s : string) :
  substring (String.length a) (String.length s) (a ++ s) = s.
Proof. induction a as [|c a IH]; cbn; [apply substring_whole | exact IH]. Qed.

Lemma substring_before (a s : string) :
  substring 0 (String.length a) (a ++ s) = a.
Proof.
  induction a as [|c a IH]; cbn; [now destruct s | now rewrite IH].
Qed.

Lemma substring_split (k : nat) :
  forall x, k <= String.length x ->
    x = (substring 0 k x ++ substring k (String.length x - k) x)%string.
Proof.
  induction k as [|k IH]; intros x Hk.
  - rewrite Nat.sub_0_r, substring_whole. now destruct x.
  - destruct x as [|c x]; [inversion Hk|]. cbn in Hk. cbn.
    f_equal. apply IH. lia.
Qed.

(** [endsWith] holds of the strings that are something followed by the
    suffix, and of no other. *)
Lemma endsWith_app (a s : string) : endsWith (a ++ s) s = true.
Proof.
  unfold endsWith. rewrite length_app_string.
  replace (String.length a + String.length s - String.length s)
    with (String.length a) by lia.
  rewrite substring_after, String.eqb_refl.
  apply andb_true_iff. split; [apply Nat.leb_le; lia | reflexivity].
Qed.

Lemma endsWith_inv (x s : string) :
  endsWith x s = true -> exists a, x = (a ++ s)%string.
Proof.
  unfold endsWith. intro H. apply andb_true_iff in H as [Hlen Heq].
  apply Nat.leb_le in Hlen. apply String.eqb_eq in Heq.
  exists (substring 0 (String.length x - String.length s) x).
  pose proof (substring_split (String.length x - String.length s) x) as Hx.
  replace (String.length x - (String.length x - String.length s))
    with (String.length s) in Hx by lia.
  rewrite Heq in Hx. apply Hx. lia.
Qed.

End SuffixFacts.

(** ** The registry server: API roots, tenants and the arms of a call *)

Section RegistryCallFacts.

Variable encodeURIComponent : json -> result string.
Variable URLSearchParams : json -> result string.

Local Abbreviation serve := (serve encodeURIComponent URLSearchParams).
Local Abbreviation mcp_call_handler := (mcp_call_handler encodeURIComponent URLSearchParams).

(** X6: whatever non-empty string a tenant has as base URL,
    [mkBaseApi] answers a string that ends in [/api] or [/api/]. *)
Theorem mkBaseApi_ends_in_api (base : string) :
  base <> EmptyString ->
  exists api,
    mkBaseApi (Some (JStr base)) = Some api
    /\ (endsWith api "/api" = true \/ endsWith api "/api/" = true).
Proof.
  intro H. apply String.eqb_neq in H. unfold mkBaseApi. cbn [truthy]. rewrite H.
  cbn [negb].
  set (b := strip_slash (js_String (Some (JStr base)))).
  destruct (endsWith b "/api" || endsWith b "/api/")%bool eqn:Hapi.
  - exists b. split; [reflexivity|]. now apply orb_true_iff.
  - destruct (endsWith b "/maximo" || endsWith b "/maximo/")%bool.
    + exists (b ++ "/api")%string. split; [reflexivity|]. left. apply endsWith_app.
    + exists (b ++ "/maximo/api")%string. split; [reflexivity|]. left.
      change "/maximo/api" with ("/maximo" ++ "/api")%string.
      rewrite <- app_assoc_string. apply endsWith_app.
Qed.

Lemma lookup_set_field_same (k : string) (v : json) (fields : list (string * json)) :
  lookup k (set_field k v fields) = Some v.
Proof.
  induction fields as [|[k' v'] fields IH]; cbn.
  - now rewrite String.eqb_refl.
  - destruct (String.eqb k k') eqn:Hk; cbn.
    + now rewrite String.eqb_refl.
    + now rewrite Hk.
Qed.

Lemma lookup_set_field_other (k k0 : string) (v : json) (fields : list (string * json)) :
  k0 <> k -> lookup k0 (set_field k v fields) = lookup k0 fields.
Proof.
  intro Hne. induction fields as [|[k' v'] fields IH]; cbn.
  - apply String.eqb_neq in Hne. now rewrite Hne.
  - destruct (String.eqb k k') eqn:Hk; cbn.
    + apply String.eqb_eq in Hk. subst k'.
      apply String.eqb_neq in Hne. now rewrite Hne.
    + destruct (String.eqb k0 k'); [reflexivity | exact IH].
Qed.


Lemma ToString_val (v : jsval) (s : string) : ToString v = Val s -> s = js_String v.
Proof.
  unfold ToString. destruct v as [w|]; [|intro H; now inversion H].
  destruct (printable w); [|discriminate]. intro H. now inversion H.
Qed.

(** The tenant context of a tenant that is in the registry: its own
    properties, and [api]. *)
Lemma tenantOrThrow_own (tenants : json) (tenantId : string)
    (fields : list (string * json)) (t : json) :
  get tenants tenantId = Some (JObj fields) ->
  tenantOrThrow tenants tenantId = Val t ->
  exists api,
    mkBaseApi (lookup "baseUrl" fields) = Some api
    /\ t = JObj (set_field "api" (JStr api) fields).
Proof.
  intros Hget Hctx.
  destruct (tenantOrThrow_val _ _ _ Hctx) as (fields' & c & rest & Hres & _ & Hapi & ->).
  rewrite (resolve_own _ _ _ Hget) in Hres. inversion Hres; subst fields'.
  now exists (String c rest).
Qed.

Lemma attempt_cases (rq : result maximo_request) (maximo : fetched)
    (pass_on : response -> answer) :
  (exists e, attempt rq maximo pass_on = (mcp_failed e, []))
  \/ exists q,
       rq = Val q
       /\ attempt rq maximo pass_on
          = (match maximo with
             | Rejected e => mcp_failed e
             | Responded r => pass_on r
             end, [q]).
Proof.
  destruct rq as [q|e]; [right | left; now exists e].
  exists q. split; [reflexivity|]. now destruct maximo.
Qed.

Lemma request_of_val (method : string) (url : result string)
    (headers : result (list (string * jsval))) (extra : list (string * jsval))
    (body : option json) (q : maximo_request) :
  request_of method url headers extra body = Val q ->
  exists u h,
    url = Val u /\ headers = Val h
    /\ q = {| mx_method := method; mx_url := u; mx_headers := h ++ extra;
              mx_body := body |}.
Proof.
  unfold request_of. destruct url as [u|e]; [|discriminate].
  destruct headers as [h|e]; [|discriminate].
  intro H. inversion H. now exists u, h.
Qed.

Lemma authHeaders_apikey (t : json) (h : list (string * jsval)) :
  authHeaders t = Val h ->
  In ("apikey",
      Some (JStr (js_String (js_or (get t "apiKey") (Some (JStr EmptyString)))))) h.
Proof.
  unfold authHeaders.
  destruct (ToString _) as [k|e] eqn:Hk; [|discriminate].
  apply ToString_val in Hk. subst k. intro H. inversion H. right. now left.
Qed.

Lemma os_url_val (api : string) (os params : json) (u : string) :
  os_url encodeURIComponent URLSearchParams api os params = Val u ->
  exists rest, u = (api ++ "/os" ++ rest)%string.
Proof.
  unfold os_url. destruct (encodeURIComponent os) as [o|e]; [|discriminate].
  destruct (URLSearchParams params) as [q|e]; [|discriminate].
  intro H. inversion H. now exists ("/" ++ o ++ "?" ++ q)%string.
Qed.

Lemma serve_request (a : action) (t args : json) (tool : jsval) (maximo : fetched)
    (rq : maximo_request) :
  In rq (snd (serve a t args tool maximo)) ->
  (exists rest, mx_url rq = (js_String (get t "api") ++ "/os" ++ rest)%string)
  /\ In ("apikey",
         Some (JStr (js_String (js_or (get t "apiKey") (Some (JStr EmptyString))))))
        (mx_headers rq).
Proof.
  assert (Hone : forall method url extra body pass_on,
             (forall u, url = Val u ->
                        exists rest, u = (js_String (get t "api") ++ "/os" ++ rest)%string) ->
             In rq (snd (attempt (request_of method url (authHeaders t) extra body)
                           maximo pass_on)) ->
             (exists rest,
                 mx_url rq = (js_String (get t "api") ++ "/os" ++ rest)%string)
             /\ In ("apikey",
                    Some (JStr (js_String (js_or (get t "apiKey")
                                             (Some (JStr EmptyString))))))
                   (mx_headers rq)).
  { intros method url extra body pass_on Hurl Hin.
    destruct (attempt_cases (request_of method url (authHeaders t) extra body)
                maximo pass_on) as [[e He]|(q & Hq & He)];
      rewrite He in Hin; cbn [snd In] in Hin; [now elim Hin|].
    destruct Hin as [<-|[]].
    apply request_of_val in Hq as (u & h & Hu & Hh & ->). cbn [mx_url mx_headers].
    split; [now apply Hurl|].
    apply in_or_app. left. now apply authHeaders_apikey. }
  unfold RegistryCall.serve. destruct a.
  - apply Hone. intros u Hu. inversion Hu. exists EmptyString.
    now rewrite app_empty_string.
  - destruct (opt_get (Some args) "os") as [o|]; [|intros []].
    destruct (negb _); [intros []|].
    apply Hone. intros u. apply os_url_val.
  - destruct (opt_get (Some args) "os") as [o|]; [|intros []].
    destruct (negb _); [intros []|].
    apply Hone. intros u. apply os_url_val.
  - intros [].
Qed.

(** X7: a call that names a tenant of the registry is sent below that
    tenant's API root and carries that tenant's API key, in whatever arm
    it ends. *)
Theorem call_goes_to_the_named_tenant (tenants body : json) (tenantId : string)
    (fields : list (string * json)) (maximo : fetched)
    (a : answer) (sent : list maximo_request) (rq : maximo_request) :
  toString (tenant_value body) = Val tenantId ->
  get tenants tenantId = Some (JObj fields) ->
  mcp_call_handler tenants body maximo = Handled a sent ->
  In rq sent ->
  (exists api rest,
     mkBaseApi (lookup "baseUrl" fields) = Some api
     /\ mx_url rq = (api ++ "/os" ++ rest)%string)
  /\ In ("apikey",
         Some (JStr (js_String (js_or (lookup "apiKey" fields) (Some (JStr EmptyString))))))
        (mx_headers rq).
Proof.
  intros Hid Hget Hrun Hin.
  unfold RegistryCall.mcp_call_handler in Hrun. rewrite Hid in Hrun.
  destruct (tenantOrThrow tenants tenantId) as [t|e] eqn:Hctx.
  2:{ inversion Hrun; subst. now elim Hin. }
  destruct (tenantOrThrow_own _ _ _ _ Hget Hctx) as (api & Hapi & ->).
  destruct (serve _ _ _ _ _) as [a' sent'] eqn:Hserve.
  inversion Hrun; subst a' sent'.
  assert (Hin' : In rq (snd (serve (dispatch (call_tool body))
                               (JObj (set_field "api" (JStr api) fields))
                               (call_args body) (call_tool body) maximo)))
    by now rewrite Hserve.
  apply serve_request in Hin' as [[rest Hrq] Hkey].
  cbn [get] in Hrq, Hkey.
  rewrite lookup_set_field_same in Hrq.
  rewrite lookup_set_field_other in Hkey by discriminate.
  split; [exists api, rest; now split | exact Hkey].
Qed.



(** X9: the tool list announces [maximo.create] with the arguments [os]
    and [body] and no others, but the arm posts [args.payload]: a call
    with exactly the announced arguments posts the empty object, whatever
    record it carries under [body]. *)
Theorem create_posts_payload_not_body (t os record : json) (tool : jsval)
    (o q : string) (headers : list (string * jsval)) (maximo : fetched) :
  truthy (Some os) = true ->
  encodeURIComponent os = Val o ->
  URLSearchParams (JObj [("lean", JNum 1)]) = Val q ->
  authHeaders t = Val headers ->
  advertised_arguments "maximo.create" = Some (["os"; "body"], Some (JBool false))
  /\ snd (serve Create t (JObj [("os", os); ("body", record)]) tool maximo)
     = [{| mx_method := "POST";
           mx_url := (js_String (get t "api") ++ "/os/" ++ o ++ "?" ++ q)%string;
           mx_headers := headers ++ [("content-type", Some (JStr "application/json"))];
           mx_body := Some (JObj []) |}].
Proof.
  intros Hos Ho Hq Hh. split; [reflexivity|].
  unfold RegistryCall.serve, os_url.
  cbn [opt_get get lookup String.eqb Ascii.eqb Bool.eqb].
  rewrite Hos. cbn [negb or_else js_or truthy]. rewrite Ho, Hq, Hh.
  now destruct maximo.
Qed.

(** X10: the names [GET /mcp/tools] offers are exactly the identifiers
    [POST /mcp/call] has an arm for. *)
Theorem advertised_tools_are_the_served_ones (s : string) :
  In (Some (JStr s)) advertised_names <-> dispatch (Some (JStr s)) <> UnknownTool.
Proof.
  change advertised_names
    with [Some (JStr "maximo.listOS"); Some (JStr "maximo.queryOS");
          Some (JStr "maximo.create")].
  unfold dispatch; cbn [is_string In]. split.
  - intros [H|[H|[H|[]]]]; inversion H; subst; cbn; discriminate.
  - intro H.
    destruct (String.eqb s "maximo.listOS") eqn:H1;
      [apply String.eqb_eq in H1; subst; now left|].
    destruct (String.eqb s "maximo.queryOS") eqn:H2;
      [apply String.eqb_eq in H2; subst; right; now left|].
    destruct (String.eqb s "maximo.create") eqn:H3;
      [apply String.eqb_eq in H3; subst; right; right; now left|].
    now elim H.
Qed.

(** X11: what the registry's adapter produces, the agent's adapter
    leaves as it is: the tool list of [GET /mcp/tools] reaches the
    provider unchanged. *)
Theorem toOpenAITools_keeps_registry_output (mcpTools : json) :
  toOpenAITools (mcpToOpenAITools mcpTools) = mcpToOpenAITools mcpTools.
Proof.
  unfold mcpToOpenAITools, toOpenAITools.
  set (ts := match mcpTools with JArr items => items | _ => [] end).
  rewrite toOpenAITools_loop_flat_map. f_equal.
  induction ts as [|t ts IH]; [reflexivity|].
  cbn [map filter].
  match goal with
  | |- context [truthy (opt_get (get (descriptor ?n ?d ?p) "function") "name")] =>
      destruct (truthy (opt_get (get (descriptor n d p) "function") "name")) eqn:Hn
  end.
  - cbn [flat_map]. rewrite adapt_descriptor by (eapply named_descriptor; exact Hn).
    cbn [app]. f_equal. exact IH.
  - exact IH.
Qed.

(** X12: the registry reads an invocation request of the agent back as
    the agent built it: the tenant is the one the agent names, whatever
    [args.tenant] says, the tool is the provider's function name and the
    arguments are the parsed arguments. *)
Theorem registry_reads_back_the_request (name : jsval) (args : json) (tenant : string) :
  tenant <> EmptyString ->
  toString (tenant_value (call_body name args tenant)) = Val tenant
  /\ call_tool (call_body name args tenant) = name
  /\ (truthy (Some args) = true -> call_args (call_body name args tenant) = args).
Proof.
  intro Ht. destruct tenant as [|c tenant]; [now elim Ht|].
  assert (Hargs : get (call_body name args (String c tenant)) "args" = Some args)
    by now destruct name.
  assert (Htenant : get (call_body name args (String c tenant)) "tenant"
                    = Some (JStr (String c tenant))) by now destruct name.
  unfold tenant_value, call_tool, call_args, or_else.
  rewrite Hargs, Htenant. repeat split.
  - now destruct name.
  - intro H. unfold js_or. now rewrite H.
Qed.

(** X14: a registry server started without [TENANTS_JSON] and without
    [MAXIMO_URL] serves no call: whatever the tenant, the tool and the
    arguments, the answer is the 400 of the tenant that is not
    configured, and Maximo is not contacted. *)
Theorem registry_without_base_url_rejects_every_call
    (url apikey user password : option string) (body : json) (tenantId : string)
    (maximo : fetched) :
  url = None \/ url = Some EmptyString ->
  toString (tenant_value body) = Val tenantId ->
  mcp_call_handler (loadTenants None url apikey user password) body maximo
  = Handled
      (SendJson 400
         (JObj [("error", JStr ("Error: Tenant is not configured: " ++ tenantId))]))
      [].
Proof.
  intros Hurl Hid.
  unfold RegistryCall.mcp_call_handler. rewrite Hid.
  rewrite tenantOrThrow_unconfigured; [reflexivity | discriminate |].
  unfold loadTenants. cbn [resolve lookup].
  destruct (String.eqb tenantId "default"); [|destruct (inherited tenantId)];
    cbn [js_or truthy lookup String.eqb opt_get get];
    destruct Hurl as [-> | ->]; cbn [app opt_get get lookup String.eqb];
    now destruct apikey, user, password.
Qed.


End RegistryCallFacts.

(** ** The trace buffer over time *)

Section LogSequence.

Variable entry : Type.

Lemma shift_while_push (LOG_MAX : nat) (log : list entry) (e : entry) :
  shift_while entry LOG_MAX (shift_while entry LOG_MAX log ++ [e])
  = shift_while entry LOG_MAX (log ++ [e]).
Proof.
  rewrite !shift_while_skipn.
  destruct (Nat.le_gt_cases (List.length log) LOG_MAX) as [Hle|Hgt].
  - replace (List.length log - LOG_MAX) with 0 by lia. reflexivity.
  - set (a := List.length log - LOG_MAX).
    assert (Ha : List.length (skipn a log) = LOG_MAX)
      by (rewrite length_skipn; unfold a; lia).
    rewrite !length_app, Ha. cbn [List.length].
    replace (List.length log + 1 - LOG_MAX) with (1 + a) by (unfold a; lia).
    replace (LOG_MAX + 1 - LOG_MAX) with 1 by lia.
    rewrite <- skipn_skipn. f_equal.
    rewrite skipn_app. replace (a - List.length log) with 0 by (unfold a; lia).
    reflexivity.
Qed.

(** X13: after any sequence of [pushLog] calls on the empty buffer, the
    buffer holds the last [LOG_MAX] of the pushed entries, in the order
    they were pushed: exactly [LOG_MAX] of them once that many were
    pushed. *)
Theorem pushLog_keeps_most_recent (LOG_MAX : nat) (pushed : list entry) :
  fold_left (pushLog entry LOG_MAX) pushed []
    = skipn (List.length pushed - LOG_MAX) pushed
  /\ List.length (fold_left (pushLog entry LOG_MAX) pushed [])
     = Nat.min (List.length pushed) LOG_MAX.
Proof.
  assert (H : forall es log,
             fold_left (pushLog entry LOG_MAX) es (shift_while entry LOG_MAX log)
             = shift_while entry LOG_MAX (log ++ es)).
  { induction es as [|e es IH]; intro log; cbn [fold_left].
    - now rewrite app_nil_r.
    - unfold pushLog at 2. rewrite shift_while_push, IH, <- app_assoc. reflexivity. }
  specialize (H pushed []). cbn [shift_while app] in H.
  rewrite H, shift_while_skipn. split; [reflexivity|].
  rewrite length_skipn. lia.
Qed.

(** X25: [GET /api/logs] does not validate [limit].  A limit that is
    not a number selects the whole buffer, and a limit of [-k] all but
    the [k] oldest events; with [k = 0] that is the whole buffer
    again. *)
Theorem logs_limit_is_not_validated (LOG_MAX : nat) (log : list entry) :
  logs entry LOG_MAX log (Some NaN) = log
  /\ forall k, logs entry LOG_MAX log (Some (Int (- Z.of_nat k))) = skipn k log.
Proof.
  split.
  { unfold logs, slice. cbn [Math_min neg]. change (0 <? 0)%Z with false. cbv iota.
    replace (Z.min 0 (Z.of_nat (List.length log))) with 0%Z by lia. reflexivity. }
  intro k. unfold logs, slice. cbn [Math_min neg].
  replace (Z.min (- Z.of_nat k) (Z.of_nat LOG_MAX)) with (- Z.of_nat k)%Z by lia.
  rewrite Z.opp_involutive.
  destruct (Z.ltb_spec (Z.of_nat k) 0) as [Hneg|_]; [lia|].
  destruct (Nat.le_gt_cases k (List.length log)) as [Hle|Hgt].
  - replace (Z.min (Z.of_nat k) (Z.of_nat (List.length log))) with (Z.of_nat k) by lia.
    now rewrite Nat2Z.id.
  - replace (Z.min (Z.of_nat k) (Z.of_nat (List.length log)))
      with (Z.of_nat (List.length log)) by lia.
    rewrite Nat2Z.id, skipn_all. symmetry. apply skipn_all2. lia.
Qed.

End LogSequence.

(** ** Whole runs of the agent's handler *)

Section Sends.

Context {A B : Type}.
Variable P : event -> Prop.

Lemma sends_quiet (m : M A) :
  (forall s, trace (snd (m s)) = trace s) -> sends P m.
Proof.
  intros H s. exists []. rewrite app_nil_r. split; [apply H | constructor].
Qed.

Lemma sends_bind (m : M A) (k : A -> M B) :
  sends P m -> (forall x, sends P (k x)) -> sends P (bind m k).
Proof.
  intros Hm Hk s. destruct (Hm s) as (e1 & H1 & F1). unfold bind.
  destruct (m s) as [[x|e] s1]; cbn [snd] in H1.
  - destruct (Hk x s1) as (e2 & H2 & F2). exists (e1 ++ e2).
    rewrite H2, H1, app_assoc. split; [reflexivity | apply Forall_app; now split].
  - exists e1. now split.
Qed.

End Sends.

Lemma sends_fetch (P : event -> Prop) (ev : event) (answer : list event -> fetched) :
  P ev -> sends P (fetch ev answer).
Proof.
  intros HP s. exists [ev]. rewrite fetch_eq.
  split; [now destruct (answer (trace s)) | now constructor].
Qed.

Section RunFacts.

Variable JSON_parse : string -> option json.
Variable JSON_stringify : json -> string.
Variable E : env.

Local Abbreviation agent := (agent_chat JSON_parse JSON_stringify E).

Section LoopSends.

Variable tenant : string.
Variable P : event -> Prop.
Hypothesis P_call : forall name args, P (TxCall (call_body name args tenant)).

Lemma sends_run_tool_call (tc : json) :
  sends P (run_tool_call JSON_parse JSON_stringify E tenant tc).
Proof.
  unfold run_tool_call.
  apply sends_bind; [apply sends_fetch, P_call|].
  intro r. apply sends_bind.
  { apply sends_quiet. intro s. now destruct (parsed r). }
  intro v. apply sends_bind.
  { apply sends_quiet. intro s. now destruct tc. }
  intro id. now apply sends_quiet.
Qed.

Lemma sends_for_each (tcs : list json) :
  sends P (for_each tcs (run_tool_call JSON_parse JSON_stringify E tenant)).
Proof.
  induction tcs as [|tc tcs IH]; cbn [for_each].
  - now apply sends_quiet.
  - apply sends_bind; [apply sends_run_tool_call | intros _; exact IH].
Qed.

Lemma sends_handle_completion (out : json) :
  sends P (handle_completion JSON_parse JSON_stringify E tenant out).
Proof.
  unfold handle_completion. destruct (negb _).
  - now apply sends_quiet.
  - apply sends_bind; [now apply sends_quiet|]. intros _.
    apply sends_bind.
    { unfold for_of. destruct (iterate _).
      - apply sends_for_each.
      - now apply sends_quiet. }
    intros _. apply sends_bind; now (try intros _; apply sends_quiet).
Qed.

Variable tools : json.
Hypothesis P_chat : forall msgs, P (TxChat (chat_request_of msgs tools)).

Lemma sends_openaiCompatChat : sends P (openaiCompatChat E tools).
Proof.
  intro s. unfold openaiCompatChat.
  apply sends_bind; [apply sends_fetch, P_chat|].
  intro r. now apply sends_quiet.
Qed.

Lemma sends_for_loop (after : M reply) (n : nat) :
  sends P after ->
  sends P (for_loop n (iteration JSON_parse JSON_stringify E tenant tools) after).
Proof.
  intro Hafter. induction n as [|n IH]; cbn [for_loop]; [assumption|].
  apply sends_bind.
  { unfold iteration. apply sends_bind; [apply sends_openaiCompatChat|].
    intro out. apply sends_handle_completion. }
  intros [r|]; [now apply sends_quiet | exact IH].
Qed.

End LoopSends.

Lemma call_body_tenant (name : jsval) (args : json) (tenant : string) :
  get (call_body name args tenant) "tenant" = Some (JStr tenant).
Proof. now destruct name. Qed.

(** X15: with tools switched on and a registry that answers the
    tool-list request, the handler asks for the tool list exactly once,
    before anything else and for the configured tenant; every completion
    request of the run then offers the same adapted list, and every
    invocation names the configured tenant. *)
Theorem tool_list_is_fetched_once (c : config) (rt : response) :
  tools_on c ->
  registry_tools E = Responded rt ->
  exists evs,
    trace (snd (agent c)) = TxTools (cfg_tenant c) :: evs
    /\ Forall (loop_request (cfg_tenant c) (toOpenAITools (rawTools_of rt))) evs.
Proof.
  intros Hon Hrt. unfold agent_chat. rewrite catch_all_trace.
  rewrite (openai_compat_tools _ _ _ c _ rt Hon Hrt). unfold tool_loop.
  assert (H : sends (loop_request (cfg_tenant c) (toOpenAITools (rawTools_of rt)))
                (copy_messages ;;;
                 for_loop 6 (iteration JSON_parse JSON_stringify E (cfg_tenant c)
                               (toOpenAITools (rawTools_of rt)))
                   (ret exceeded))).
  { apply sends_bind; [now apply sends_quiet|]. intros _.
    apply sends_for_loop.
    - intros name args. apply call_body_tenant.
    - intro msgs. reflexivity.
    - now apply sends_quiet. }
  destruct (H (sent (initial_state c) [TxTools (cfg_tenant c)])) as (evs & Ht & F).
  exists evs. split; [exact Ht | exact F].
Qed.

(** *** One completion request per pass, and the conversation it sends *)

Section Conversation.

Variable tenant : string.
Variable tools : json.

Local Abbreviation pass := (iteration JSON_parse JSON_stringify E tenant tools).

Lemma conversations_app (t u : list event) :
  conversations (t ++ u) = conversations t ++ conversations u.
Proof. unfold conversations. apply flat_map_app. Qed.

Lemma conversations_invocations (evs : list event) :
  Forall is_invocation evs -> conversations evs = [].
Proof.
  induction 1 as [|ev evs Hev _ IH]; [reflexivity|].
  destruct ev; cbn in Hev; try discriminate Hev. exact IH.
Qed.

Lemma chats_of_invocations (evs : list event) :
  Forall is_invocation evs -> chats evs = 0.
Proof.
  induction 1 as [|ev evs Hev _ IH]; [reflexivity|].
  destruct ev; cbn in Hev; try discriminate Hev. exact IH.
Qed.

(** What a pass adds to the trace: its completion request, then
    invocations only. *)
Lemma pass_trace (s : state) :
  exists evs,
    trace (snd (pass s))
    = trace s ++ TxChat (chat_request_of (messages s) tools) :: evs
    /\ Forall is_invocation evs.
Proof.
  unfold iteration, bind. rewrite openaiCompatChat_eq.
  destruct (provider E (chats (trace s))) as [e|r];
    [exists []; split; [reflexivity | constructor]|].
  destruct (completion_of r) as [out|e];
    [|exists []; split; [reflexivity | constructor]].
  destruct (sends_handle_completion tenant is_invocation
              (fun _ _ => eq_refl) out
              (sent s [TxChat (chat_request_of (messages s) tools)]))
    as (evs & Ht & F).
  exists evs. rewrite Ht. cbn [sent trace]. rewrite <- app_assoc. now split.
Qed.

Lemma loop_conversations (n : nat) :
  forall s,
    messages s = loopMessages s ->
    exists convs,
      conversations (trace (snd (for_loop n pass (ret exceeded) s)))
      = conversations (trace s) ++ convs
      /\ match convs with
         | [] => True
         | first :: rest => first = messages s /\ grows first rest
         end.
Proof.
  induction n as [|n IH]; intros s Hs; cbn [for_loop].
  - exists []. now rewrite app_nil_r.
  - destruct (pass_trace s) as (evs & Ht & F). unfold bind.
    destruct (pass s) as [[[r|]|e] s1] eqn:Hpass; cbn [snd] in Ht.
    + exists [messages s]. cbn [ret snd]. rewrite Ht, conversations_app.
      cbn [conversations flat_map]. fold (conversations evs).
      rewrite (conversations_invocations evs F). now repeat split.
    + destruct (iteration_inv _ _ _ _ _ _ _ Hpass)
        as (out & tcs & ms & _ & Hloop & _ & Hms & Hsync).
      destruct (IH s1 Hsync) as (convs & Hc & Hg).
      exists (messages s :: convs). rewrite Hc, Ht, conversations_app.
      cbn [conversations flat_map]. fold (conversations evs).
      rewrite (conversations_invocations evs F), <- app_assoc.
      split; [reflexivity|]. split; [reflexivity|].
      destruct convs as [|first rest]; [exact I|].
      destruct Hg as [-> Hg]. split; [|exact Hg].
      exists (assistant_message out), ms.
      rewrite Hsync, Hloop, <- Hs. now repeat split.
    + exists [messages s]. cbn [snd]. rewrite Ht, conversations_app.
      cbn [conversations flat_map]. fold (conversations evs).
      rewrite (conversations_invocations evs F). now repeat split.
Qed.

End Conversation.

(** X16: the provider is always sent the whole conversation.  The first
    completion request of a run carries the system and user messages of
    the request; each later one carries the messages of the one before
    it, followed by one assistant message and then tool messages only. *)
Theorem conversation_only_grows (c : config) :
  match conversations (trace (snd (agent c))) with
  | [] => True
  | first :: rest => first = initial_messages c /\ grows first rest
  end.
Proof.
  unfold agent_chat. rewrite catch_all_trace. unfold openai_compat.
  destruct (String.eqb (cfg_apiKey c) EmptyString); [exact I|].
  destruct (String.eqb (cfg_base c) EmptyString); [exact I|].
  destruct (negb _).
  - unfold bind. rewrite openaiCompatChat_eq. cbn [initial_state trace chats].
    destruct (provider E _) as [e|r]; [now split|].
    destruct (completion_of r); now split.
  - unfold bind at 1. rewrite fetch_eq.
    destruct (registry_tools E) as [e|rt]; [exact I|].
    unfold tool_loop, bind at 1. cbn [copy_messages].
    match goal with
    | |- context [for_loop 6 ?p _ ?s0] =>
        destruct (loop_conversations (cfg_tenant c) (toOpenAITools (rawTools_of rt)) 6 s0
                    eq_refl) as (convs & Hc & Hg)
    end.
    rewrite Hc. cbn [conversations flat_map sent trace initial_state app messages].
    destruct convs as [|first rest]; [exact I | exact Hg].
Qed.


(** *** What the handler answers *)

Lemma loop_returns (tenant : string) (tools : json) (n : nat) :
  forall s r s',
    for_loop n (iteration JSON_parse JSON_stringify E tenant tools) (ret exceeded) s
    = (Val r, s') ->
    exists v, r = reply_json v.
Proof.
  induction n as [|n IH]; intros s r s' H; cbn [for_loop] in H.
  - inversion H; subst. now eexists.
  - apply bind_inv in H as ([r0|] & s1 & Hpass & Hk).
    + inversion Hk; subst. unfold iteration in Hpass.
      apply bind_inv in Hpass as (out & s2 & _ & Hh). unfold handle_completion in Hh.
      destruct (negb _).
      * inversion Hh; subst. now eexists.
      * apply bind_inv in Hh as (? & ? & _ & Hh).
        apply bind_inv in Hh as (? & ? & _ & Hh).
        apply bind_inv in Hh as (? & ? & _ & Hh). discriminate Hh.
    + eapply IH; eassumption.
Qed.

(** X17: the answers of the handler.  Status 200 goes with a body
    [{ reply }], status 400 with one of the two configuration errors and
    status 500 with [agent_failed]; there is no other answer. *)
Theorem agent_chat_answers (c : config) :
  (exists v, fst (agent c) = {| code := 200; payload := JObj [("reply", v)] |})
  \/ (exists d,
        fst (agent c)
        = {| code := 400;
             payload := JObj [("error", JStr "missing_api_key"); ("detail", JStr d)] |})
  \/ (exists d,
        fst (agent c)
        = {| code := 400;
             payload := JObj [("error", JStr "missing_base"); ("detail", JStr d)] |})
  \/ (exists d,
        fst (agent c)
        = {| code := 500;
             payload := JObj [("error", JStr "agent_failed"); ("detail", JStr d)] |}).
Proof.
  unfold agent_chat, catch_all.
  destruct (openai_compat _ _ _ c (initial_state c)) as [[r|e] s'] eqn:H; cbn [fst];
    [|right; right; right; now eexists].
  unfold openai_compat in H.
  destruct (String.eqb (cfg_apiKey c) EmptyString);
    [inversion H; right; left; now eexists|].
  destruct (String.eqb (cfg_base c) EmptyString);
    [inversion H; right; right; left; now eexists|].
  left. destruct (negb _).
  - apply bind_inv in H as (out & s1 & _ & H). inversion H. now eexists.
  - apply bind_inv in H as (rt & s1 & _ & H). unfold tool_loop in H.
    apply bind_inv in H as (? & s2 & _ & H). eapply loop_returns; eassumption.
Qed.

Lemma configured_sends (c : config) :
  configured c ->
  exists ev evs,
    trace (snd (openai_compat JSON_parse JSON_stringify E c (initial_state c)))
    = ev :: evs.
Proof.
  intros [Hk Hb]. apply String.eqb_neq in Hk, Hb.
  unfold openai_compat. rewrite Hk, Hb.
  destruct (negb _).
  - unfold bind. rewrite openaiCompatChat_eq. cbn [initial_state trace chats].
    destruct (provider E _) as [e|r]; [now eexists; eexists|].
    destruct (completion_of r); now eexists; eexists.
  - unfold bind at 1. rewrite fetch_eq.
    destruct (registry_tools E) as [e|rt]; [now eexists; eexists|].
    assert (H : sends (fun _ => True)
                  (tool_loop JSON_parse JSON_stringify E (cfg_tenant c)
                     (toOpenAITools (rawTools_of rt)))).
    { unfold tool_loop. apply sends_bind; [now apply sends_quiet|]. intros _.
      apply sends_for_loop; [intros; exact I | intros; exact I |].
      now apply sends_quiet. }
    destruct (H (sent (initial_state c) [TxTools (cfg_tenant c)])) as (evs & Ht & _).
    rewrite Ht. cbn. now eexists; eexists.
Qed.

(** X18: with an API key and a base URL the handler sends at least one
    request; without one of them it sends nothing and answers 400. *)
Theorem no_request_iff_misconfigured (c : config) :
  (configured c -> trace (snd (agent c)) <> [])
  /\ (~ configured c ->
      trace (snd (agent c)) = [] /\ code (fst (agent c)) = 400%Z).
Proof.
  split.
  - intro Hc. unfold agent_chat. rewrite catch_all_trace.
    destruct (configured_sends c Hc) as (ev & evs & ->). discriminate.
  - intro Hn. unfold agent_chat, catch_all, openai_compat.
    destruct (String.eqb (cfg_apiKey c) EmptyString) eqn:Hk; [now split|].
    destruct (String.eqb (cfg_base c) EmptyString) eqn:Hb; [now split|].
    apply String.eqb_neq in Hk, Hb. elim Hn. now split.
Qed.


(** X19: with tools switched off, or without a registry URL, the
    handler sends one request only: a completion request that carries
    the system and user messages and offers no tools.  The registry is
    not contacted.  The provider's answer decides the rest: a network
    failure or an error status gives 500 [agent_failed], a completion
    gives its first message's content, or the empty string, as reply. *)
Theorem plain_chat_single_request (c : config) :
  configured c ->
  cfg_enableTools c = false \/ cfg_mcpUrl c = EmptyString ->
  trace (snd (agent c)) = [TxChat (plain_request c)]
  /\ fst (agent c)
     = match provider E 0 with
       | Rejected e =>
           {| code := 500;
              payload := JObj [("error", JStr "agent_failed");
                               ("detail", JStr (detail_of e))] |}
       | Responded r =>
           match completion_of r with
           | Throw e =>
               {| code := 500;
                  payload := JObj [("error", JStr "agent_failed");
                                   ("detail", JStr (detail_of e))] |}
           | Val out =>
               {| code := 200;
                  payload :=
                    JObj [("reply",
                           or_else (opt_get (first_message out) "content")
                             (JStr EmptyString))] |}
           end
       end.
Proof.
  intros [Hk Hb] Hoff. apply String.eqb_neq in Hk, Hb.
  unfold agent_chat, catch_all, openai_compat. rewrite Hk, Hb.
  assert (Hplain : negb (cfg_enableTools c
                         && negb (String.eqb (cfg_mcpUrl c) EmptyString)) = true).
  { destruct Hoff as [-> | ->]; [reflexivity|].
    now destruct (cfg_enableTools c). }
  rewrite Hplain. unfold bind. rewrite openaiCompatChat_eq.
  cbn [initial_state trace chats filter List.length messages].
  destruct (provider E 0) as [e|r]; [now split|].
  destruct (completion_of r); now split.
Qed.

(** *** Errors of the provider *)

Section Fatal.

Variable tenant : string.
Variable tools : json.

Local Abbreviation pass := (iteration JSON_parse JSON_stringify E tenant tools).

Lemma pass_ends (s : state) : ends_at_error E s (pass s).
Proof.
  intros k r Hk Hr Hok.
  destruct (pass_trace tenant tools s) as (evs & Ht & F).
  assert (Hc : chats (trace (snd (pass s))) = S (chats (trace s))).
  { rewrite Ht, chats_app. change (TxChat ?rq :: evs) with ([TxChat rq] ++ evs).
    rewrite chats_app, (chats_of_invocations evs F). cbn. lia. }
  assert (k = chats (trace s)) by lia. subst k.
  split; [lia|]. clear Ht Hc Hk F evs.
  assert (He : exists e, completion_of r = Throw e).
  { unfold completion_of. rewrite Hok. now eexists. }
  destruct He as [e He].
  unfold iteration, bind. rewrite openaiCompatChat_eq, Hr, He.
  cbn [fst snd sent trace].
  split; [now eexists; eexists|]. now exists e.
Qed.

Lemma pass_chats (s : state) : chats (trace (snd (pass s))) = S (chats (trace s)).
Proof.
  destruct (pass_trace tenant tools s) as (evs & Ht & F).
  rewrite Ht, chats_app. change (TxChat ?rq :: evs) with ([TxChat rq] ++ evs).
  rewrite chats_app, (chats_of_invocations evs F). cbn. lia.
Qed.

Lemma loop_ends (n : nat) :
  forall s, ends_at_error E s (for_loop n pass (ret exceeded) s).
Proof.
  induction n as [|n IH]; intros s k r Hk Hr Hok; cbn [for_loop] in *.
  - cbn in Hk. lia.
  - pose proof (pass_ends s k r) as Hp. pose proof (pass_chats s) as Hc.
    unfold bind in *. destruct (pass s) as [[[r0|]|e] s1]; cbn [fst snd ret] in *.
    + destruct (Hp Hk Hr Hok) as (_ & _ & e & _ & He). discriminate He.
    + destruct (Nat.eq_dec k (chats (trace s))) as [->|Hne].
      * assert (Hin : chats (trace s) <= chats (trace s) < chats (trace s1)) by lia.
        destruct (Hp Hin Hr Hok) as (_ & _ & e & _ & He). discriminate He.
      * apply (IH s1 k r); [lia | assumption | assumption].
    + destruct (Hp Hk Hr Hok) as (H1 & H2 & e' & H3 & H4).
      split; [assumption|]. split; [assumption|]. exists e'.
      inversion H4; subst. now split.
Qed.

End Fatal.

(** X20: an error status of the provider is fatal wherever it comes.
    When the provider answers a completion request of a run with a
    status outside 200-299, that request is the last request of the run,
    and the handler answers 500 [agent_failed] with the error
    [openaiCompatChat] raised for that answer as detail. *)
Theorem provider_error_ends_the_run (c : config) (k : nat) (r : response) :
  k < chats (trace (snd (agent c))) ->
  provider E k = Responded r ->
  ok r = false ->
  S k = chats (trace (snd (agent c)))
  /\ (exists rq evs, trace (snd (agent c)) = evs ++ [TxChat rq])
  /\ exists e,
       completion_of r = Throw e
       /\ fst (agent c)
          = {| code := 500;
               payload := JObj [("error", JStr "agent_failed");
                                ("detail", JStr (detail_of e))] |}.
Proof.
  unfold agent_chat. rewrite catch_all_trace. intros Hk Hr Hok.
  assert (H : S k = chats (trace (snd (openai_compat JSON_parse JSON_stringify E c
                                         (initial_state c))))
              /\ (exists rq evs,
                    trace (snd (openai_compat JSON_parse JSON_stringify E c
                                  (initial_state c))) = evs ++ [TxChat rq])
              /\ exists e,
                   completion_of r = Throw e
                   /\ fst (openai_compat JSON_parse JSON_stringify E c (initial_state c))
                      = Throw e).
  { revert Hk. unfold openai_compat.
    destruct (String.eqb (cfg_apiKey c) EmptyString); [cbn; lia|].
    destruct (String.eqb (cfg_base c) EmptyString); [cbn; lia|].
    destruct (negb _).
    - unfold bind. rewrite openaiCompatChat_eq.
      cbn [initial_state trace chats filter List.length messages].
      destruct (provider E 0) as [e0|r0] eqn:H0.
      + cbn. intro Hk. assert (k = 0) by lia. subst k. congruence.
      + destruct (completion_of r0) as [out|e0] eqn:Hc0; cbn; intro Hk;
          assert (k = 0) by lia; subst k;
          rewrite H0 in Hr; inversion Hr; subst r0.
        * unfold completion_of in Hc0. rewrite Hok in Hc0. discriminate Hc0.
        * split; [reflexivity|]. split; [now exists (chat_request_of (initial_messages c) (JArr [])), []|].
          now exists e0.
    - unfold bind at 1 2 3 4. rewrite fetch_eq.
      destruct (registry_tools E) as [e0|rt]; [cbn; lia|].
      unfold tool_loop, bind at 1 2 3 4. cbn [copy_messages].
      intro Hk.
      match goal with
      | |- context [for_loop 6 _ _ ?s0] =>
          apply (loop_ends (cfg_tenant c) (toOpenAITools (rawTools_of rt)) 6 s0 k r)
      end; [|assumption|assumption].
      split; [cbn; lia | exact Hk]. }
  destruct H as (H1 & H2 & e & H3 & H4).
  split; [assumption|]. split; [assumption|]. exists e. split; [assumption|].
  unfold catch_all.
  destruct (openai_compat _ _ _ c (initial_state c)) as [[r0|e0] s']; cbn [fst] in *;
    [discriminate H4 | now inversion H4].
Qed.



End RunFacts.

(** ** The agent's Maximo helpers *)

Section MaximoHelperFacts.

Lemma replace_suffix_app (a suffix by_ : string) :
  replace_suffix (a ++ suffix) suffix by_ = (a ++ by_)%string.
Proof.
  unfold replace_suffix. rewrite endsWith_app, length_app_string.
  replace (String.length a + String.length suffix - String.length suffix)
    with (String.length a) by lia.
  now rewrite substring_before.
Qed.

Lemma replace_slash_is_strip_slash (s : string) :
  replace_suffix s "/" EmptyString = strip_slash s.
Proof.
  unfold replace_suffix, strip_slash. destruct (endsWith s "/"); [|reflexivity].
  apply app_empty_string.
Qed.

(** What [normMaximoBase] returns, from the text of its argument: for a
    text that is not blank, the trimmed text without one trailing slash,
    and [/maximo] after it unless it is there. *)
Lemma normMaximoBase_eq (url : jsval) :
  normMaximoBase url
  = match ToString (js_or url (Some (JStr EmptyString))) with
    | Throw e => Throw e
    | Val s =>
        Val (if String.eqb (trim s) EmptyString then EmptyString
             else if endsWith (strip_slash (trim s)) "/maximo" then strip_slash (trim s)
                  else (strip_slash (trim s) ++ "/maximo")%string)
    end.
Proof.
  unfold normMaximoBase. destruct (ToString _) as [s|e]; [|reflexivity]. cbv zeta.
  destruct (String.eqb (trim s) EmptyString); [reflexivity|].
  rewrite replace_slash_is_strip_slash.
  now destruct (endsWith (strip_slash (trim s)) "/maximo").
Qed.

Lemma normMaximoBase_cases (url : jsval) (b : string) :
  normMaximoBase url = Val b ->
  b = EmptyString \/ exists a, b = (a ++ "/maximo")%string.
Proof.
  rewrite normMaximoBase_eq. destruct (ToString _) as [s|e]; [|discriminate].
  intro H. inversion H as [Hb]. clear H.
  destruct (String.eqb _ EmptyString); [now left | right].
  destruct (endsWith (strip_slash _) "/maximo") eqn:He.
  - now apply endsWith_inv.
  - now eexists.
Qed.

Lemma app_not_empty (a : string) (c : ascii) (b : string) :
  String.eqb (a ++ String c b) EmptyString = false.
Proof. now destruct a. Qed.

(** X22: the API root the agent computes is empty for a blank base URL,
    and otherwise the normalized base URL -- which ends in [/maximo] --
    followed by [/api]; both helpers raise on the same arguments. *)
Theorem maximoApiBase_ends_in_maximo_api (base : jsval) :
  match normMaximoBase base with
  | Throw e => maximoApiBase base = Throw e
  | Val b =>
      (b = EmptyString /\ maximoApiBase base = Val EmptyString)
      \/ exists a,
           b = (a ++ "/maximo")%string
           /\ maximoApiBase base = Val (a ++ "/maximo/api")%string
  end.
Proof.
  unfold maximoApiBase.
  destruct (normMaximoBase base) as [b|e] eqn:Hb; [|reflexivity].
  destruct (normMaximoBase_cases base b Hb) as [-> | [a ->]]; [now left | right].
  exists a. split; [reflexivity|].
  change "/maximo" with (String "/" "maximo"). rewrite app_not_empty.
  now rewrite replace_suffix_app.
Qed.

Lemma maximoApiBase_eq (url : jsval) :
  maximoApiBase url
  = match ToString (js_or url (Some (JStr EmptyString))) with
    | Throw e => Throw e
    | Val s =>
        Val (if String.eqb (trim s) EmptyString then EmptyString
             else if endsWith (strip_slash (trim s)) "/maximo"
                  then (strip_slash (trim s) ++ "/api")%string
                  else (strip_slash (trim s) ++ "/maximo/api")%string)
    end.
Proof.
  unfold maximoApiBase. rewrite normMaximoBase_eq.
  destruct (ToString _) as [s|e]; [|reflexivity].
  destruct (String.eqb (trim s) EmptyString); [reflexivity|].
  destruct (endsWith (strip_slash (trim s)) "/maximo") eqn:H.
  - destruct (endsWith_inv _ _ H) as [a ->].
    change "/maximo" with (String "/" "maximo") at 1. rewrite app_not_empty.
    rewrite replace_suffix_app.
    change "/maximo/api" with ("/maximo" ++ "/api")%string.
    now rewrite app_assoc_string.
  - change "/maximo" with (String "/" "maximo") at 1. rewrite app_not_empty.
    rewrite replace_suffix_app. reflexivity.
Qed.

(** X23: the agent and the registry server compute the same API root
    from a base URL that has no blank around it, unless the URL already
    ends in [/api] or in [/maximo/] once a trailing slash is taken off:
    there the registry keeps [/api], or adds [/api] only, where the agent
    adds [/maximo/api]. *)
Theorem api_roots_agree (b : string) :
  trim b = b ->
  b <> EmptyString ->
  endsWith (strip_slash b) "/api" = false ->
  endsWith (strip_slash b) "/api/" = false ->
  endsWith (strip_slash b) "/maximo/" = false ->
  exists api,
    mkBaseApi (Some (JStr b)) = Some api
    /\ maximoApiBase (Some (JStr b)) = Val api.
Proof.
  intros Htrim Hne Hapi Hapis Hmax. apply String.eqb_neq in Hne.
  rewrite maximoApiBase_eq. unfold mkBaseApi, js_or.
  cbn [truthy]. rewrite Hne. cbn [negb js_String String_of ToString printable].
  rewrite Htrim, Hne, Hapi, Hapis, Hmax. cbn [orb].
  rewrite orb_false_r.
  destruct (endsWith (strip_slash b) "/maximo"); eexists; split; reflexivity.
Qed.

(** Blanks at the ends of a string *)

Lemma trim_end_app (a : string) (c : ascii) (b : string) :
  trim_end (String c b) = String c b -> trim_end (a ++ String c b) = (a ++ String c b)%string.
Proof.
  intro H. induction a as [|x a IH]; [exact H|].
  cbn [append trim_end]. rewrite IH. rewrite app_not_empty.
  now rewrite andb_false_r.
Qed.

Lemma trim_start_head (s : string) :
  match trim_start s with
  | EmptyString => True
  | String c _ => is_space c = false
  end.
Proof.
  induction s as [|c s IH]; [exact I|]. cbn [trim_start].
  destruct (is_space c) eqn:H; [exact IH | exact H].
Qed.

Lemma trim_end_head (s : string) :
  match s with
  | EmptyString => True
  | String c _ => is_space c = false
  end ->
  match trim_end s with
  | EmptyString => True
  | String c _ => is_space c = false
  end.
Proof.
  destruct s as [|c s]; [trivial|]. intro H. cbn [trim_end]. now rewrite H.
Qed.

Lemma trim_head (s : string) :
  match trim s with
  | EmptyString => True
  | String c _ => is_space c = false
  end.
Proof. unfold trim. apply trim_end_head, trim_start_head. Qed.

Lemma trim_start_nonspace (s : string) :
  match s with
  | EmptyString => True
  | String c _ => is_space c = false
  end ->
  trim_start s = s.
Proof. destruct s as [|c s]; [trivial|]. intro H. cbn. now rewrite H. Qed.

Lemma substring_head (n : nat) (s : string) :
  match s with
  | EmptyString => True
  | String c _ => is_space c = false
  end ->
  match substring 0 n s with
  | EmptyString => True
  | String c _ => is_space c = false
  end.
Proof. destruct s as [|c s], n; cbn; trivial. Qed.

Lemma strip_slash_head (s : string) :
  match s with
  | EmptyString => True
  | String c _ => is_space c = false
  end ->
  match strip_slash s with
  | EmptyString => True
  | String c _ => is_space c = false
  end.
Proof.
  intro H. unfold strip_slash. destruct (endsWith s "/"); [|exact H].
  now apply substring_head.
Qed.

Lemma app_head (a b : string) :
  match a with
  | EmptyString => True
  | String c _ => is_space c = false
  end ->
  match b with
  | EmptyString => True
  | String c _ => is_space c = false
  end ->
  match (a ++ b)%string with
  | EmptyString => True
  | String c _ => is_space c = false
  end.
Proof. destruct a; cbn; trivial. Qed.

Lemma substring_app_skip (a s : string) (k m : nat) :
  substring (String.length a + k) m (a ++ s) = substring k m s.
Proof. induction a as [|c a IH]; [reflexivity | exact IH]. Qed.

Lemma endsWith_app_long (a s suffix : string) :
  String.length suffix <= String.length s ->
  endsWith (a ++ s) suffix = endsWith s suffix.
Proof.
  intro H. unfold endsWith. rewrite length_app_string.
  replace (String.length a + String.length s - String.length suffix)
    with (String.length a + (String.length s - String.length suffix)) by lia.
  rewrite substring_app_skip.
  replace (Nat.leb (String.length suffix) (String.length a + String.length s)) with true
    by (symmetry; apply Nat.leb_le; lia).
  replace (Nat.leb (String.length suffix) (String.length s)) with true
    by (symmetry; apply Nat.leb_le; lia).
  reflexivity.
Qed.

Lemma strip_slash_maximo (a : string) :
  strip_slash (a ++ "/maximo") = (a ++ "/maximo")%string.
Proof.
  unfold strip_slash. rewrite endsWith_app_long by (cbn; lia). reflexivity.
Qed.

(** X24: [normMaximoBase] is idempotent: what it returns, it returns
    for that again. *)
Theorem normMaximoBase_idempotent (url : jsval) (b : string) :
  normMaximoBase url = Val b ->
  normMaximoBase (Some (JStr b)) = Val b.
Proof.
  intro Hb.
  assert (Hhead : match b with
                  | EmptyString => True
                  | String c _ => is_space c = false
                  end).
  { rewrite normMaximoBase_eq in Hb. destruct (ToString _) as [s|e]; [|discriminate].
    inversion Hb as [H]. clear Hb H.
    destruct (String.eqb _ EmptyString); [exact I|].
    destruct (endsWith _ "/maximo").
    - apply strip_slash_head, trim_head.
    - apply app_head; [apply strip_slash_head, trim_head | reflexivity]. }
  destruct (normMaximoBase_cases url b Hb) as [-> | [a ->]]; [reflexivity|].
  rewrite normMaximoBase_eq.
  unfold js_or. cbn [truthy].
  change "/maximo" with (String "/" "maximo") at 1. rewrite app_not_empty.
  cbn [negb ToString printable String_of].
  assert (Htrim : trim (a ++ "/maximo") = (a ++ "/maximo")%string).
  { unfold trim. rewrite (trim_start_nonspace _ Hhead).
    now apply trim_end_app. }
  rewrite Htrim. change "/maximo" with (String "/" "maximo") at 1.
  rewrite app_not_empty, strip_slash_maximo, endsWith_app. reflexivity.
Qed.

End MaximoHelperFacts.

(** ** The hypotheses of the registry and agent theorems at sample inputs *)

Lemma mkBaseApi_ends_in_api_witness :
  "https://maximo.example.com/" <> EmptyString
  /\ exists api,
       mkBaseApi (Some (JStr "https://maximo.example.com/")) = Some api
       /\ (endsWith api "/api" = true \/ endsWith api "/api/" = true).
Proof.
  assert (H : "https://maximo.example.com/" <> EmptyString) by discriminate.
  split; [exact H|].
  exact (mkBaseApi_ends_in_api "https://maximo.example.com/" H).
Defined.

Lemma call_goes_to_the_named_tenant_witness :
  toString (tenant_value RegistrySample.create_for_acme) = Val "acme"
  /\ get RegistrySample.two_tenants "acme" = Some (JObj RegistrySample.acme)
  /\ mcp_call_handler RegistrySample.encode RegistrySample.search
       RegistrySample.two_tenants RegistrySample.create_for_acme RegistrySample.created
     = Handled (forward RegistrySample.created_response) [RegistrySample.post_to_acme]
  /\ (exists api rest,
        mkBaseApi (lookup "baseUrl" RegistrySample.acme) = Some api
        /\ mx_url RegistrySample.post_to_acme = (api ++ "/os" ++ rest)%string)
  /\ In ("apikey", Some (JStr "acme-key")) (mx_headers RegistrySample.post_to_acme).
Proof.
  split; [reflexivity|]. split; [reflexivity|]. split; [reflexivity|].
  exact (call_goes_to_the_named_tenant RegistrySample.encode RegistrySample.search
           RegistrySample.two_tenants RegistrySample.create_for_acme "acme"
           RegistrySample.acme RegistrySample.created
           (forward RegistrySample.created_response) [RegistrySample.post_to_acme]
           RegistrySample.post_to_acme
           eq_refl eq_refl eq_refl (or_introl eq_refl)).
Defined.

Lemma create_posts_payload_not_body_witness :
  truthy (Some (JStr "MXWO")) = true
  /\ snd (serve RegistrySample.encode RegistrySample.search Create
            RegistrySample.acme_context
            (JObj [("os", JStr "MXWO"); ("body", RegistrySample.work_order)])
            (Some (JStr "maximo.create")) RegistrySample.created)
     = [RegistrySample.post_to_acme].
Proof.
  split; [reflexivity|].
  exact (proj2 (create_posts_payload_not_body RegistrySample.encode RegistrySample.search
                  RegistrySample.acme_context (JStr "MXWO") RegistrySample.work_order
                  (Some (JStr "maximo.create")) "MXWO" "lean=1" _
                  RegistrySample.created eq_refl eq_refl eq_refl eq_refl)).
Defined.

Lemma registry_reads_back_the_request_witness :
  "acme" <> EmptyString
  /\ toString (tenant_value
                 (call_body (Some (JStr "maximo.queryOS"))
                    (JObj [("os", JStr "MXWO"); ("tenant", JStr "other")]) "acme"))
     = Val "acme"
  /\ call_tool (call_body (Some (JStr "maximo.queryOS"))
                  (JObj [("os", JStr "MXWO"); ("tenant", JStr "other")]) "acme")
     = Some (JStr "maximo.queryOS").
Proof.
  assert (H : "acme" <> EmptyString) by discriminate.
  pose (R := registry_reads_back_the_request (Some (JStr "maximo.queryOS"))
               (JObj [("os", JStr "MXWO"); ("tenant", JStr "other")]) "acme" H).
  exact (conj H (conj (proj1 R) (proj1 (proj2 R)))).
Defined.

Lemma tool_list_is_fetched_once_witness :
  tools_on Sample.request
  /\ (exists rt, registry_tools Sample.registry_failing = Responded rt)
  /\ exists evs,
       trace (snd (agent_chat Sample.parse_braces Sample.stringify
                     Sample.registry_failing Sample.request))
       = TxTools "default" :: evs
       /\ Forall (loop_request "default"
                    (toOpenAITools (items_of_tool_list Sample.tool_list))) evs.
Proof.
  assert (H1 : tools_on Sample.request) by (repeat split; discriminate).
  split; [exact H1|]. split; [eexists; reflexivity|].
  exact (tool_list_is_fetched_once Sample.parse_braces Sample.stringify
           Sample.registry_failing Sample.request _ H1 eq_refl).
Defined.

Lemma plain_chat_single_request_witness :
  configured RunSample.plain
  /\ trace (snd (agent_chat Sample.parse_braces Sample.stringify
                   Sample.tools_unreachable RunSample.plain))
     = [TxChat (plain_request RunSample.plain)]
  /\ fst (agent_chat Sample.parse_braces Sample.stringify
            Sample.tools_unreachable RunSample.plain)
     = {| code := 200; payload := JObj [("reply", JStr "done")] |}.
Proof.
  assert (H1 : configured RunSample.plain) by (split; discriminate).
  split; [exact H1|].
  exact (plain_chat_single_request Sample.parse_braces Sample.stringify
           Sample.tools_unreachable RunSample.plain H1 (or_introl eq_refl)).
Defined.

Lemma provider_error_ends_the_run_witness :
  1 < chats (trace (snd (agent_chat Sample.parse_braces Sample.stringify
                           RunSample.limited_after_call Sample.request)))
  /\ ok RunSample.rate_limited = false
  /\ 2 = chats (trace (snd (agent_chat Sample.parse_braces Sample.stringify
                              RunSample.limited_after_call Sample.request)))
  /\ (exists e,
        completion_of RunSample.rate_limited = Throw e
        /\ fst (agent_chat Sample.parse_braces Sample.stringify
                  RunSample.limited_after_call Sample.request)
           = {| code := 500;
                payload := JObj [("error", JStr "agent_failed");
                                 ("detail", JStr (detail_of e))] |})
  /\ fst (agent_chat Sample.parse_braces Sample.stringify
            RunSample.limited_after_call Sample.request)
     = {| code := 500;
          payload := JObj [("error", JStr "agent_failed");
                           ("detail", JStr "Rate limit reached")] |}.
Proof.
  assert (H1 : 1 < chats (trace (snd (agent_chat Sample.parse_braces Sample.stringify
                                       RunSample.limited_after_call Sample.request))))
    by (vm_compute; lia).
  split; [exact H1|]. split; [reflexivity|].
  pose (R := provider_error_ends_the_run Sample.parse_braces Sample.stringify
               RunSample.limited_after_call Sample.request 1 RunSample.rate_limited
               H1 eq_refl eq_refl).
  exact (conj (proj1 R) (conj (proj2 (proj2 R)) eq_refl)).
Defined.


Lemma registry_without_base_url_rejects_every_call_witness :
  toString (tenant_value RegistrySample.create_for_acme) = Val "acme"
  /\ mcp_call_handler RegistrySample.encode RegistrySample.search
       (loadTenants None None (Some "key") None None)
       RegistrySample.create_for_acme RegistrySample.created
     = Handled
         (SendJson 400 (JObj [("error", JStr "Error: Tenant is not configured: acme")]))
         [].
Proof.
  split; [reflexivity|].
  exact (registry_without_base_url_rejects_every_call
           RegistrySample.encode RegistrySample.search
           None (Some "key") None None
           RegistrySample.create_for_acme "acme" RegistrySample.created
           (or_introl eq_refl) eq_refl).
Defined.

Lemma api_roots_agree_witness :
  trim "https://maximo.example.com/" = "https://maximo.example.com/"
  /\ exists api,
       mkBaseApi (Some (JStr "https://maximo.example.com/")) = Some api
       /\ maximoApiBase (Some (JStr "https://maximo.example.com/")) = Val api.
Proof.
  assert (H : "https://maximo.example.com/" <> EmptyString) by discriminate.
  split; [reflexivity|].
  exact (api_roots_agree "https://maximo.example.com/" eq_refl H eq_refl eq_refl eq_refl).
Defined.

Lemma normMaximoBase_idempotent_witness :
  normMaximoBase (Some (JStr " https://maximo.example.com/ "))
    = Val "https://maximo.example.com/maximo"
  /\ normMaximoBase (Some (JStr "https://maximo.example.com/maximo"))
     = Val "https://maximo.example.com/maximo".
Proof.
  split; [reflexivity|].
  exact (normMaximoBase_idempotent (Some (JStr " https://maximo.example.com/ "))
           "https://maximo.example.com/maximo" eq_refl).
Defined.
